(** * aquecimento: timestamp resolution, series construction and metrics

    A shallow embedding of the data pipeline of [script.js]:
    [parseTimestamp], [buildDataStructure], [computeMetrics], the
    aggregation part of [updateSummaryPanel], what the page draws and
    how [init] starts; and of the click handler of [data_script.js].

    Conventions of the embedding.
    - A JavaScript string is a [string]; its characters are read as code
      units below 256.
    - A timestamp ([Date.prototype.getTime]) is an integer number of
      milliseconds, a [Z].  Integers produced by [parseInt] are exact
      [Z]s (doubles agree with them below 2^53).
    - A temperature and every derived amount is a finite double, embedded
      in [Q]; arithmetic on them is exact.  [NaN] and [null] results are
      [None].  The bounds of a window are instants; the [NaN] an unset
      input field gives is outside the model.
    - The availability text is computed in binary64, as the code does:
      the hours and minutes it shows are floors of rounded quotients.
    - The built-ins whose behaviour the host decides ([Date] parsing of
      the assembled text, [parseFloat]) are section variables; reference
      instances are given for closed examples.
    - A write to the storage is taken, or it throws and leaves the
      storage as it was; which of the two is the host's decision, a
      section variable.  What the code does with the exception, catching
      and logging it or letting it leave the handler, is modelled. *)

From Stdlib Require Import ZArith QArith Lia List Bool Ascii String.
From Stdlib Require Import DecimalString Sorting.Sorted Sorting.Permutation.
From Stdlib Require Import Floats.
From stdpp Require Import gmap strings list fin_maps.

Local Open Scope string_scope.
Local Open Scope Z_scope.

(** ** Built-in string operations *)

Module Js.

Definition code (c : ascii) : Z := Z.of_N (N_of_ascii c).

Definition is_digit (c : ascii) : bool := (48 <=? code c) && (code c <=? 57).

Definition digit_val (c : ascii) : Z := code c - 48.

(** WhiteSpace and LineTerminator code units below 256:
    TAB, LF, VT, FF, CR, SP, NBSP. *)
Definition is_space (c : ascii) : bool :=
  let n := code c in
  ((9 <=? n) && (n <=? 13)) || (n =? 32) || (n =? 160).

Definition is_empty (s : string) : bool :=
  match s with EmptyString => true | String _ _ => false end.

Fixpoint trim_start (s : string) : string :=
  match s with
  | EmptyString => EmptyString
  | String c r => if is_space c then trim_start r else s
  end.

Fixpoint trim_end (s : string) : string :=
  match s with
  | EmptyString => EmptyString
  | String c r =>
      match trim_end r with
      | EmptyString => if is_space c then EmptyString else String c EmptyString
      | r' => String c r'
      end
  end.

(** [String.prototype.trim] *)
Definition trim (s : string) : string := trim_end (trim_start s).

Fixpoint repeat_char (c : ascii) (n : nat) : string :=
  match n with O => EmptyString | S k => String c (repeat_char c k) end.

(** [String.prototype.padStart(n, '0')] *)
Definition padStart0 (n : nat) (s : string) : string :=
  repeat_char "0" (n - String.length s) ++ s.

(** [Number.prototype.toString] on an integer. *)
Definition toString (z : Z) : string := NilZero.string_of_int (Z.to_int z).

(** [String.prototype.split] with a separator class that matches one
    character: the pieces between the separators, in order. *)
Fixpoint split (sep : ascii -> bool) (s : string) : list string :=
  match s with
  | EmptyString => [EmptyString]
  | String c r =>
      if sep c then EmptyString :: split sep r
      else match split sep r with
           | [] => [String c EmptyString]
           | p :: ps => String c p :: ps
           end
  end.

(** The longest prefix of decimal digits, as a number; [None] when the
    text does not start with a digit. *)
Fixpoint digits (acc : option Z) (s : string) : option Z :=
  match s with
  | EmptyString => acc
  | String c r =>
      if is_digit c then digits (Some (10 * default 0 acc + digit_val c)) r
      else acc
  end.

(** [parseInt(s, 10)]: leading white space is skipped, one sign is
    accepted, then the longest run of digits is read; [None] is [NaN]. *)
Definition parseInt (s : string) : option Z :=
  match trim_start s with
  | String "-" r => Z.opp <$> digits None r
  | String "+" r => digits None r
  | r => digits None r
  end.

(** ASCII lower case, the only folding the [i] flag does on the letters
    of the two patterns of the program. *)
Definition lower (c : ascii) : ascii :=
  let n := code c in
  if (65 <=? n) && (n <=? 90) then ascii_of_N (Z.to_N (n + 32)) else c.

Fixpoint prefix_ci (p s : string) : bool :=
  match p, s with
  | EmptyString, _ => true
  | String a p', String b s' => Ascii.eqb (lower a) (lower b) && prefix_ci p' s'
  | String _ _, EmptyString => false
  end.

(** [String.prototype.replace(',', '.')]: the first comma only. *)
Fixpoint replace_comma (s : string) : string :=
  match s with
  | EmptyString => EmptyString
  | String c r => if Ascii.eqb c "," then String "." r else String c (replace_comma r)
  end.

End Js.

(** ** Reference instances of the host built-ins

    [Date] and [parseFloat] belong to the host.  The program is embedded
    over arbitrary ones; the instances below follow ECMA-262 as V8 reads
    it on the inputs they accept, and serve the closed examples. *)

Module Host.

Fixpoint take_digits (n : nat) (acc : Z) (s : string) : option (Z * string) :=
  match n with
  | O => Some (acc, s)
  | S k =>
      match s with
      | String c r =>
          if Js.is_digit c then take_digits k (10 * acc + Js.digit_val c) r
          else None
      | EmptyString => None
      end
  end.

Definition expect (c : ascii) (s : string) : option string :=
  match s with
  | String d r => if Ascii.eqb c d then Some r else None
  | EmptyString => None
  end.

(** Days between 1970-01-01 and the given civil date; a day past the end
    of the month counts on into the next one. *)
Definition day_number (y m d : Z) : Z :=
  let y' := if m <=? 2 then y - 1 else y in
  let era := y' / 400 in
  let yoe := y' - era * 400 in
  let mp := if m >? 2 then m - 3 else m + 9 in
  let doy := (153 * mp + 2) / 5 + d - 1 in
  let doe := yoe * 365 + yoe / 4 - yoe / 100 + doy in
  era * 146097 + doe - 719468.

Definition seconds_part (s : string) : option (Z * Z * string) :=
  match s with
  | String ":" r =>
      '(sec, r1) ← take_digits 2 0 r;
      match r1 with
      | String "." r2 => '(ms, r3) ← take_digits 3 0 r2; Some (sec, ms, r3)
      | _ => Some (sec, 0, r1)
      end
  | _ => Some (0, 0, s)
  end.

(** Minutes east of UTC: [Z], a signed [HH:mm], or local time when the
    text ends. *)
Definition offset_part (tz : Z) (s : string) : option Z :=
  let signed (sg : Z) (r : string) : option Z :=
    '(h, r1) ← take_digits 2 0 r;
    r2 ← expect ":" r1;
    '(m, r3) ← take_digits 2 0 r2;
    if Js.is_empty r3 && (h <=? 23) && (m <=? 59) then Some (sg * (60 * h + m))
    else None in
  match s with
  | EmptyString => Some tz
  | String "Z" EmptyString => Some 0
  | String "+" r => signed 1 r
  | String "-" r => signed (-1) r
  | _ => None
  end.

(** The part after [T], [HH:mm[:ss[.sss]][Z|+HH:mm|-HH:mm]]: the
    milliseconds since midnight UTC of the day written, for a host whose
    local time is [tz] minutes east of UTC. *)
Definition time_of_day (tz : Z) (s : string) : option Z :=
  '(h, s) ← take_digits 2 0 s;
  s ← expect ":" s;
  '(mi, s) ← take_digits 2 0 s;
  '(sec, ms, s) ← seconds_part s;
  off ← offset_part tz s;
  if ((h <=? 23) || ((h =? 24) && (mi =? 0) && (sec =? 0) && (ms =? 0)))
     && (mi <=? 59) && (sec <=? 59)
  then Some ((((h * 60) + mi - off) * 60 + sec) * 1000 + ms)
  else None.

(** [new Date(text).getTime()] on the date-time form [YYYY-MM-DDT] and
    the time of the Date Time String Format; any other text is an
    invalid date.  The month is checked against 01 to 12 and the day
    against 01 to 31, the ranges of the format: the day is not checked
    against the length of the month. *)
Definition Date_getTime (tz : Z) (text : string) : option Z :=
  '(y, s) ← take_digits 4 0 text;
  s ← expect "-" s;
  '(mo, s) ← take_digits 2 0 s;
  s ← expect "-" s;
  '(d, s) ← take_digits 2 0 s;
  s ← expect "T" s;
  ms ← time_of_day tz s;
  if (1 <=? mo) && (mo <=? 12) && (1 <=? d) && (d <=? 31)
  then Some (day_number y mo d * 86400000 + ms)
  else None.

Definition Date_utc : string -> option Z := Date_getTime 0.

Fixpoint span_digits (acc : Z) (n : nat) (s : string) : Z * nat * string :=
  match s with
  | String c r =>
      if Js.is_digit c then span_digits (10 * acc + Js.digit_val c) (S n) r
      else (acc, n, s)
  | EmptyString => (acc, n, s)
  end.

Definition exponent_part (s : string) : Z :=
  let read (sg : Z) (r : string) : Z :=
    let '(e, n, _) := span_digits 0 0 r in
    if (n =? 0)%nat then 0 else sg * e in
  match s with
  | String c r =>
      if Ascii.eqb c "e" || Ascii.eqb c "E" then
        match r with
        | String "-" r' => read (-1) r'
        | String "+" r' => read 1 r'
        | _ => read 1 r
        end
      else 0
  | EmptyString => 0
  end.

(** [parseFloat] on decimal text: white space, a sign, digits with an
    optional fraction and exponent; trailing text is ignored.  The value
    is the exact decimal; the text [Infinity] has no image in [Q] and is
    left out. *)
Definition parseFloat (s : string) : option Q :=
  let s0 := Js.trim_start s in
  let '(sg, s1) :=
    match s0 with
    | String "-" r => (-1, r)
    | String "+" r => (1, r)
    | _ => (1, s0)
    end in
  let '(ip, ni, s2) := span_digits 0 0 s1 in
  let '(m, nf, s3) :=
    match s2 with
    | String "." r => span_digits ip 0 r
    | _ => (ip, O, s2)
    end in
  if (ni + nf =? 0)%nat then None
  else
    let e := exponent_part s3 - Z.of_nat nf in
    Some (if 0 <=? e then inject_Z (sg * m * 10 ^ e)
          else Qmake (sg * m) (Z.to_pos (10 ^ (- e)))).

End Host.

(** ** Data model *)

(** One reading of one motor: [{ t, value }]. *)
Record point := { t : Z; value : Q }.

(** A parsed CSV row: its columns in [Object.keys] order, each with the
    text of its cell. *)
Definition row := list (string * string).

(** [minTime] and [maxTime] start at [Infinity] and [-Infinity]. *)
Inductive bound := Infinity | NegInfinity | At (ms : Z).

Record built := {
  motorData : gmap Z (list point);
  minTime : bound;
  maxTime : bound
}.

(** The two module-level rates: R$ per litre and litres per hour. *)
Record rates := { dieselPrice : Q; dieselConsumption : Q }.

Definition default_rates : rates :=
  {| dieselPrice := 5.30; dieselConsumption := 6.30 |}.

Record metrics := {
  availability : string;
  economiaLitros : Q;
  economiaRS : Q;
  economiaMes : Q;
  lastTemperature : option Q
}.

Record summary := {
  heatingMotors : list Z;
  totalLitrosHeating : Q;
  totalRSHeating : Q;
  totalMonthlyProjection : Q
}.

(** The day, month and year variables of [parseTimestamp]. *)
Record fields := { day : Z; month : Z; year : Z }.

(** ** parseTimestamp *)

(** The class [[\/\-]]. *)
Definition date_sep (c : ascii) : bool := Ascii.eqb c "/" || Ascii.eqb c "-".

(** Lines 37-56: which part is the day, and the two-digit year. *)
Definition assign_fields (p1 p2 p3 : Z) : fields :=
  let '(day, month, year) :=
    if (p2 >? 12) && (p1 <=? 12) then (p2, p1, p3)
    else if (p1 >? 12) && (p2 <=? 12) then (p1, p2, p3)
    else (p2, p1, p3) in
  let year := if year <? 100 then year + 2000 else year in
  {| day := day; month := month; year := year |}.

(** Line 57: the text handed to [Date]. *)
Definition iso (f : fields) (timeStr : string) : string :=
  Js.padStart0 4 (Js.toString (year f)) +:+ "-" +:+
  Js.padStart0 2 (Js.toString (month f)) +:+ "-" +:+
  Js.padStart0 2 (Js.toString (day f)) +:+ "T" +:+ Js.trim timeStr.

Section Pipeline.

(** [new Date(text).getTime()], [None] for [NaN]. *)
Variable Date_getTime : string -> option Z.

(** [parseFloat], [None] for [NaN]. *)
Variable parseFloat : string -> option Q.

Definition parseTimestamp (dateStr timeStr : string) : option Z :=
  if Js.is_empty dateStr || Js.is_empty timeStr then None
  else
    let parts := Js.split date_sep dateStr in
    if (length parts <? 3)%nat then None
    else
      match Js.parseInt (nth 0 parts ""),
            Js.parseInt (nth 1 parts ""),
            Js.parseInt (nth 2 parts "") with
      | Some p1, Some p2, Some p3 =>
          Date_getTime (iso (assign_fields p1 p2 p3) timeStr)
      | _, _, _ => None
      end.

(** [pad] *)
Definition pad (n : Z) : string := Js.padStart0 2 (Js.toString n).

(** ** buildDataStructure *)

(** [row[key]]; [None] is [undefined]. *)
Fixpoint row_get (r : row) (key : string) : option string :=
  match r with
  | [] => None
  | (k, v) :: r' => if String.eqb k key then Some v else row_get r' key
  end.

(** [x || y] on a cell that may be missing. *)
Definition or_else (x : option string) (y : string) : string :=
  match x with
  | Some (String c s) => String c s
  | _ => y
  end.

(** Unanchored search of a pattern that is tried at every position. *)
Fixpoint search {A} (here : string -> option A) (s : string) : option A :=
  match here s with
  | Some g => Some g
  | None =>
      match s with
      | EmptyString => None
      | String _ r => search here r
      end
  end.

(** One of the four words of [/\$?(Date|Time|Data|Hora)/i] at the head. *)
Definition word_here (s : string) : bool :=
  Js.prefix_ci "Date" s || Js.prefix_ci "Time" s ||
  Js.prefix_ci "Data" s || Js.prefix_ci "Hora" s.

Definition datetime_here (s : string) : option unit :=
  let opt_dollar :=
    match s with
    | String "$" r => word_here r
    | _ => false
    end in
  if opt_dollar || word_here s then Some tt else None.

(** [/\$?(Date|Time|Data|Hora)/i.test(col)] *)
Definition is_datetime_column (col : string) : bool :=
  match search datetime_here col with Some _ => true | None => false end.

(** [/SCA(\d{2})/i] at the head: the text of the group. *)
Definition sca_here (s : string) : option string :=
  if Js.prefix_ci "SCA" s then
    match s with
    | String _ (String _ (String _ (String a (String b _)))) =>
        if Js.is_digit a && Js.is_digit b
        then Some (String a (String b EmptyString))
        else None
    | _ => None
    end
  else None.

(** [col.match(/SCA(\d{2})/i)], then [parseInt(match[1], 10)]. *)
Definition motor_of_column (col : string) : option Z :=
  match search sca_here col with
  | Some group => Js.parseInt group
  | None => None
  end.

(** [if (!motorData[motorId]) motorData[motorId] = [];
     motorData[motorId].push(p)] *)
Definition push (md : gmap Z (list point)) (motorId : Z) (p : point)
  : gmap Z (list point) :=
  <[motorId := (default [] (md !! motorId) ++ [p])%list]> md.

(** The body of the loop over [Object.keys(row)], lines 116-128. *)
Definition process_column (ts : Z) (md : gmap Z (list point))
    (c : string * string) : gmap Z (list point) :=
  let '(col, cell) := c in
  if is_datetime_column col then md
  else if Js.is_empty cell then md
  else
    match parseFloat (Js.replace_comma cell) with
    | None => md
    | Some v =>
        match motor_of_column col with
        | None => md
        | Some motorId => push md motorId {| t := ts; value := v |}
        end
    end.

Definition lt_bound (ts : Z) (b : bound) : bool :=
  match b with Infinity => true | NegInfinity => false | At m => ts <? m end.

Definition gt_bound (ts : Z) (b : bound) : bool :=
  match b with Infinity => false | NegInfinity => true | At m => ts >? m end.

(** Lines 109-111: the date and time cells of a row and its timestamp. *)
Definition row_timestamp (r : row) : option Z :=
  let dateStr :=
    or_else (row_get r "$Date") (or_else (row_get r "Date")
      (or_else (row_get r "Data") (or_else (row_get r "data") ""))) in
  let timeStr :=
    or_else (row_get r "$Time") (or_else (row_get r "Time")
      (or_else (row_get r "Hora") (or_else (row_get r "hora") ""))) in
  parseTimestamp dateStr timeStr.

(** The body of the loop over the rows, lines 108-129. *)
Definition process_row (st : built) (r : row) : built :=
  match row_timestamp r with
  | None => st
  | Some ts =>
      {| motorData := fold_left (process_column ts) r (motorData st);
         minTime := if lt_bound ts (minTime st) then At ts else minTime st;
         maxTime := if gt_bound ts (maxTime st) then At ts else maxTime st |}
  end.

(** [Array.prototype.sort((a, b) => a.t - b.t)].  The sort is stable, so
    its result is the one arrangement by [t] in which equal keys keep
    their order; insertion from the right computes it. *)
Fixpoint insert_by_t (p : point) (l : list point) : list point :=
  match l with
  | [] => [p]
  | q :: l' => if t p <=? t q then p :: l else q :: insert_by_t p l'
  end.

Definition sort_by_t (l : list point) : list point := foldr insert_by_t [] l.

(** The state after the loops over the tables, before the sort. *)
Definition collect (tables : list (list row)) : built :=
  fold_left (fun st table => fold_left process_row table st) tables
    {| motorData := ∅; minTime := Infinity; maxTime := NegInfinity |}.

Definition buildDataStructure (tables : list (list row)) : built :=
  let st := collect tables in
  {| motorData := sort_by_t <$> motorData st;
     minTime := minTime st;
     maxTime := maxTime st |}.

End Pipeline.

(** ** computeMetrics *)

(** [x > y] on numbers. *)
Definition Qgtb (x y : Q) : bool := negb (Qle_bool x y).

(** The filter predicate [p.t >= startTime && p.t <= endTime]. *)
Definition in_range (startTime endTime : Z) (p : point) : bool :=
  (t p >=? startTime) && (t p <=? endTime).

(** One turn of the loop of lines 171-181 on
    [(availabilityMs, economiaMs, prev)]. *)
Definition step (acc : Z * Z * point) (curr : point) : Z * Z * point :=
  let '(availabilityMs, economiaMs, prev) := acc in
  let dt := t curr - t prev in
  let availabilityMs :=
    if Qgtb (value prev) 50 && Qgtb (value curr) 50
    then availabilityMs + dt else availabilityMs in
  let economiaMs :=
    if Qgtb (value prev) 40 && Qgtb (value curr) 40
    then economiaMs + dt else economiaMs in
  (availabilityMs, economiaMs, curr).

(** Lines 168-181: [(availabilityMs, economiaMs)] after the loop over a
    non-empty [filtered] that starts with [first]. *)
Definition accumulate (first : point) (rest : list point) : Z * Z :=
  let '(availabilityMs, economiaMs, _) := fold_left step rest (0, 0, first) in
  (availabilityMs, economiaMs).

(** The double nearest to an integer: the integer itself below 2^53. *)
Definition float_of_Z (z : Z) : float :=
  SF2Prim (binary_normalize prec emax z 0 false).

(** [Math.floor] on doubles. *)
Definition Math_floor (x : float) : float :=
  match Prim2SF x with
  | S754_finite s m e =>
      if e <? 0
      then float_of_Z ((if s then Z.neg m else Z.pos m) / 2 ^ (- e))
      else x
  | _ => x
  end.

(** [String(x)] for a double that [Math.floor] returned: the digits of
    the integer (read for integers below 10^21, which print without an
    exponent), or the name of the value that is no number. *)
Definition String_of_floor (x : float) : string :=
  match Prim2SF x with
  | S754_zero _ => "0"
  | S754_finite s m e => Js.toString (Z.shiftl (if s then Z.neg m else Z.pos m) e)
  | S754_infinity s => if s then "-Infinity" else "Infinity"
  | S754_nan => "NaN"
  end.

(** Lines 182-185, in binary64 as the code computes them. *)
Definition format_availability (availabilityMs : Z) : string :=
  let availHrs := (float_of_Z availabilityMs / 3600000)%float in
  let availHours := Math_floor availHrs in
  let availMinutes := Math_floor ((availHrs - availHours) * 60)%float in
  Js.padStart0 2 (String_of_floor availHours) +:+ ":" +:+
  Js.padStart0 2 (String_of_floor availMinutes) +:+ " h".

Definition no_metrics : metrics :=
  {| availability := "00:00 h";
     economiaLitros := 0;
     economiaRS := 0;
     economiaMes := 0;
     lastTemperature := None |}.

Definition computeMetrics (cfg : rates) (dataArr : list point)
    (startTime endTime : Z) : metrics :=
  match dataArr with
  | [] => no_metrics
  | _ :: _ =>
      let filtered := List.filter (in_range startTime endTime) dataArr in
      match filtered with
      | [] => no_metrics
      | first :: rest =>
          let '(availabilityMs, economiaMs) := accumulate first rest in
          let economiaLitros :=
            (inject_Z economiaMs / 3600000 * dieselConsumption cfg)%Q in
          let economiaRS := (economiaLitros * dieselPrice cfg)%Q in
          let economiaMes := (economiaRS * 30)%Q in
          {| availability := format_availability availabilityMs;
             economiaLitros := economiaLitros;
             economiaRS := economiaRS;
             economiaMes := economiaMes;
             lastTemperature := Some (value (List.last filtered first)) |}
      end
  end.

(** ** updateSummaryPanel: the aggregation of lines 360-385 *)

(** [for (let motorId = 1; motorId <= 23; motorId++)] *)
Definition motor_ids : list Z := map Z.of_nat (seq 1 23).

(** [motorData[motorId] && motorData[motorId].length > 0] *)
Definition has_data (md : gmap Z (list point)) (motorId : Z) : bool :=
  match md !! motorId with
  | Some (_ :: _) => true
  | _ => false
  end.

(** [heatingData && heatingData[motorId]]; a missing flag is falsy. *)
Definition is_heating (heatingData : gmap Z bool) (motorId : Z) : bool :=
  default false (heatingData !! motorId).

(** What lines 360-385 compute before the panel is drawn: the listed
    heating motors, the pair of totals [(totalLitrosHeating,
    totalRSHeating)] both updated in one loop, and the monthly total.  A
    motor without an entry in [motorData] has no series; [computeMetrics]
    treats that like the empty one. *)
Definition updateSummaryPanel (cfg : rates) (md : gmap Z (list point))
    (heatingData : gmap Z bool) (startTime endTime : Z) : summary :=
  let heatingMotors :=
    List.filter (fun motorId => is_heating heatingData motorId && has_data md motorId)
      motor_ids in
  let totalsHeating :=
    fold_left
      (fun totals motorId =>
         let m := computeMetrics cfg (default [] (md !! motorId)) startTime endTime in
         ((fst totals + economiaLitros m)%Q, (snd totals + economiaRS m)%Q))
      heatingMotors (0%Q, 0%Q) in
  let totalMonthlyProjection :=
    fold_left
      (fun total motorId =>
         if has_data md motorId then
           let m := computeMetrics cfg (default [] (md !! motorId)) startTime endTime in
           (total + economiaMes m)%Q
         else total)
      motor_ids 0%Q in
  {| heatingMotors := heatingMotors;
     totalLitrosHeating := fst totalsHeating;
     totalRSHeating := snd totalsHeating;
     totalMonthlyProjection := totalMonthlyProjection |}.

(** ** Notions used to state the properties *)

Fixpoint all_chars (P : ascii -> bool) (s : string) : bool :=
  match s with
  | EmptyString => true
  | String c r => P c && all_chars P r
  end.

(** A part that is a decimal numeral: digits and nothing else. *)
Definition numeral (s : string) : bool :=
  negb (Js.is_empty s) && all_chars Js.is_digit s.

(** A part from which [parseInt] reads a number: after white space and
    one optional sign it starts with a digit. *)
Definition leading_number (s : string) : bool :=
  let starts_with_digit (r : string) : bool :=
    match r with
    | String c _ => Js.is_digit c
    | EmptyString => false
    end in
  match Js.trim_start s with
  | String "-" r => starts_with_digit r
  | String "+" r => starts_with_digit r
  | r => starts_with_digit r
  end.

Fixpoint lower_string (s : string) : string :=
  match s with
  | EmptyString => EmptyString
  | String c r => String (Js.lower c) (lower_string r)
  end.

(** [w] occurs in [s] at some position, letter case apart. *)
Definition contains_ci (w s : string) : Prop :=
  exists pre mid suf,
    s = pre +:+ mid +:+ suf /\ lower_string mid = lower_string w.

Definition datetime_words : list string := ["Date"; "Time"; "Data"; "Hora"].

(** Non-decreasing by [t]. *)
Definition sorted_by_t (l : list point) : Prop :=
  StronglySorted (fun p q => t p <= t q) l.

(** What a pair of neighbours adds: the interval between them when both
    values exceed the threshold, nothing otherwise. *)
Definition interval_above (threshold : Q) (prev curr : point) : Z :=
  if Qlt_le_dec threshold (value prev) then
    if Qlt_le_dec threshold (value curr) then t curr - t prev else 0
  else 0.

(** The contributions of the neighbouring pairs of a sequence, added up. *)
Fixpoint qualifying (threshold : Q) (l : list point) : Z :=
  match l with
  | prev :: (curr :: _) as l' =>
      interval_above threshold prev curr + qualifying threshold l'
  | _ => 0
  end.

Definition sumQ (l : list Q) : Q := foldr Qplus 0%Q l.

(** The points of one motor among tagged samples, in their order. *)
Definition for_motor (motorId : Z) (l : list (Z * point)) : list point :=
  map snd (List.filter (fun s => Z.eqb (fst s) motorId) l).

(** [motorData[motorId] || []] *)
Definition series_of (md : gmap Z (list point)) (motorId : Z) : list point :=
  default [] (md !! motorId).

Section Accepted.

Variable Date_getTime : string -> option Z.
Variable parseFloat : string -> option Q.

(** The motor and point a column of a row with timestamp [ts] yields. *)
Definition column_sample (ts : Z) (c : string * string) : option (Z * point) :=
  let '(col, cell) := c in
  if is_datetime_column col then None
  else if Js.is_empty cell then None
  else
    match parseFloat (Js.replace_comma cell), motor_of_column col with
    | Some v, Some motorId => Some (motorId, {| t := ts; value := v |})
    | _, _ => None
    end.

Definition row_samples (r : row) : list (Z * point) :=
  match row_timestamp Date_getTime r with
  | None => []
  | Some ts => omap (column_sample ts) r
  end.

(** Every accepted sample, in the order of the tables, of the rows of a
    table, and of the columns of a row. *)
Definition accepted (tables : list (list row)) : list (Z * point) :=
  concat (map row_samples (concat tables)).

(** The points pushed for one motor, in insertion order. *)
Definition pushed (tables : list (list row)) (motorId : Z) : list point :=
  for_motor motorId (accepted tables).

End Accepted.

(** The monthly projection added over every motor of the map that has a
    sample. *)
Definition monthly_of_all (cfg : rates) (md : gmap Z (list point))
    (startTime endTime : Z) : Q :=
  sumQ (map (fun e => economiaMes (computeMetrics cfg (snd e) startTime endTime))
          (List.filter (fun e => negb (Nat.eqb (length (snd e)) 0)) (map_to_list md))).

(** The points read at one instant. *)
Definition at_time (ts : Z) (p : point) : bool := t p =? ts.

(** The series of the worked example: two readings one hour apart. *)
Definition hour_apart : list point :=
  [ {| t := 0; value := 60 |}; {| t := 3600000; value := 70 |} ].

(** Two exported tables: one row each, dates in both layouts, a decimal
    comma, a sensor column whose name carries [Data], a cell that is not
    a number. *)
Definition example_tables : list (list row) :=
  [ [ [ ("$Date", "03/15/24"); ("$Time", "10:00:00");
        ("SCA071TE402PV", "55,5"); ("SCA07_Data", "60");
        ("SCA081TE402PV", "n/a") ] ];
    [ [ ("Data", "15/03/24"); ("Hora", "09:00");
        ("SCA071TE402PV", "45.5"); ("SCA072TE402PV", "61") ] ] ].

Definition is_leap (y : Z) : bool :=
  ((y mod 4 =? 0) && negb (y mod 100 =? 0)) || (y mod 400 =? 0).

Definition days_in_month (y m : Z) : Z :=
  if m =? 2 then (if is_leap y then 29 else 28)
  else if (m =? 4) || (m =? 6) || (m =? 9) || (m =? 11) then 30
  else 31.

(** The fields are a date of the calendar. *)
Definition calendar_date (f : fields) : bool :=
  (1 <=? month f) && (month f <=? 12) &&
  (1 <=? day f) && (day f <=? days_in_month (year f) (month f)).

(** The text is a time of the day. *)
Definition clock_time (s : string) : bool :=
  match Host.time_of_day 0 s with Some _ => true | None => false end.

(** When [parseTimestamp] would fail if a part counted as numeric only
    when it is a numeral, and the resolved fields with the trimmed time
    had to be a date of the calendar and a time of the day. *)
Definition failure_as_stated (dateStr timeStr : string) : Prop :=
  let parts := Js.split date_sep dateStr in
  dateStr = "" \/ timeStr = "" \/ (length parts < 3)%nat \/
  (exists i, (i < 3)%nat /\ numeral (nth i parts "") = false) \/
  (exists p1 p2 p3,
     Js.parseInt (nth 0 parts "") = Some p1 /\
     Js.parseInt (nth 1 parts "") = Some p2 /\
     Js.parseInt (nth 2 parts "") = Some p3 /\
     calendar_date (assign_fields p1 p2 p3) && clock_time (Js.trim timeStr) = false).

(** The month and the day are within the ranges of the date-time
    format. *)
Definition format_date (f : fields) : bool :=
  (1 <=? month f) && (month f <=? 12) && (1 <=? day f) && (day f <=? 31).

(** ** The data the page draws: renderMotorButtons, updateChart,
    updateMetrics *)

(** [!motorData[motorId] || motorData[motorId].length === 0]: the button
    of a motor is disabled. *)
Definition button_disabled (md : gmap Z (list point)) (motorId : Z) : bool :=
  match md !! motorId with
  | None => true
  | Some [] => true
  | Some (_ :: _) => false
  end.

(** [renderMotorButtons]: one button per motor number from 1 to 23, in
    document order, with its [disabled] state. *)
Definition renderMotorButtons (md : gmap Z (list point)) : list (Z * bool) :=
  map (fun motorId => (motorId, button_disabled md motorId)) motor_ids.

(** [document.querySelector('.motor-button:not([disabled])')] in [init]:
    the motor of the first button that is not disabled. *)
Definition first_enabled (buttons : list (Z * bool)) : option Z :=
  fst <$> List.find (fun b => negb (snd b)) buttons.

(** Lines 253-260 of [updateChart]: the [x] and [y] arrays of the trace of
    one motor, filled point by point; an instant stands for its [Date]. *)
Definition trace_step (startTime endTime : Z) (xy : list Z * list Q) (p : point)
  : list Z * list Q :=
  if in_range startTime endTime p
  then ((fst xy ++ [t p])%list, (snd xy ++ [value p])%list)
  else xy.

Definition trace (md : gmap Z (list point)) (motorId startTime endTime : Z)
  : list Z * list Q :=
  fold_left (trace_step startTime endTime) (default [] (md !! motorId)) ([], []).

(** A card of [updateMetrics]: its title, its image, the availability
    line, and the three economy amounts when they are shown. *)
Record card := {
  title : string;
  imgSrc : string;
  disponibilidade : string;
  economia : option (Q * Q * Q)
}.

(** Lines 308-338 of [updateMetrics] for one selected motor. *)
Definition metric_card (cfg : rates) (md : gmap Z (list point))
    (heatingData : gmap Z bool) (startTime endTime motorId : Z) : card :=
  let m := computeMetrics cfg (default [] (md !! motorId)) startTime endTime in
  let hot :=
    match lastTemperature m with
    | Some v => Qle_bool 50 v
    | None => false
    end in
  {| title := "UG#" +:+ Js.padStart0 2 (Js.toString motorId);
     imgSrc := if hot then "Genset_Verde.png" else "Genset_Vermelho.png";
     disponibilidade := "Disponibilidade: " +:+ availability m;
     economia :=
       if is_heating heatingData motorId
       then Some (economiaLitros m, economiaRS m, economiaMes m)
       else None |}.

(** ** The data entry page: reading the files and storing them *)

Module DataPage.

(** [fileInputs], also the keys [init] reads back. *)
Definition fileInputs : list string := ["group1"; "group2"; "group3"; "group4"].

(** The variables of the click handler ([results], [pending]), the
    storage, and what the handler did to the page: the alerts shown, the
    messages written with [console.error], the navigations to the
    plotting page, and the exceptions that left a handler uncaught. *)
Record state := {
  results : gmap string string;
  pending : Z;
  localStorage : gmap string string;
  alerts : nat;
  console : list string;
  navigations : nat;
  uncaught : nat
}.

(** The completion of one [FileReader]: [onload] with the text read, or
    [onerror]. *)
Inductive event := Loaded (key text : string) | Failed (key : string).

Definition event_key (ev : event) : string :=
  match ev with Loaded key _ => key | Failed key => key end.

(** What ends up in [results[key]] for an event. *)
Definition event_text (ev : event) : string :=
  match ev with Loaded _ text => text | Failed _ => "" end.

(** The first arguments of the three [console.error] calls. *)
Definition file_error : string := "Erro ao armazenar arquivo no localStorage".
Definition heating_error : string := "Erro ao armazenar dados de aquecimento".
Definition diesel_error : string := "Erro ao armazenar dados de diesel".

Section Handlers.

(** [parseFloat] and [Number.prototype.toString] of the host. *)
Variable parseFloat : string -> option Q.
Variable toString : Q -> string.

(** Whether the storage, as it is, takes a write of a value under a key;
    when it does not, [setItem] throws and the storage stays as it
    was. *)
Variable accepts : gmap string string -> string -> string -> bool.

(** The page when the button is pressed: which inputs hold a file, the
    text [JSON.stringify] gives for the heating checkboxes, and the two
    number fields. *)
Variable files : string -> bool.
Variable heating : string.
Variable priceInput : string.
Variable consumptionInput : string.

(** [localStorage.setItem(key, value)]; [None] when it throws. *)
Definition setItem (ls : gmap string string) (key value : string)
    : option (gmap string string) :=
  if accepts ls key value then Some (<[key := value]> ls) else None.

(** [try { localStorage.setItem(key, value) } catch (ex) { console.error(msg, ex) }]
    on the storage and the console. *)
Definition try_setItem (msg key value : string)
    (acc : gmap string string * list string) : gmap string string * list string :=
  match setItem acc.1 key value with
  | Some ls => (ls, acc.2)
  | None => (acc.1, (acc.2 ++ [msg])%list)
  end.

(** Lines 89-96: one guarded write for each input. *)
Definition store_files (results : gmap string string)
    (acc : gmap string string * list string) : gmap string string * list string :=
  fold_left
    (fun acc id => try_setItem file_error id (or_else (results !! id) "") acc)
    fileInputs acc.

(** Lines 98-107. *)
Definition store_heating (acc : gmap string string * list string)
    : gmap string string * list string :=
  try_setItem heating_error "heating" heating acc.

(** Lines 118-120, the second write of the block. *)
Definition store_consumption (acc : gmap string string * list string)
    : gmap string string * list string :=
  match parseFloat consumptionInput with
  | Some consVal => try_setItem diesel_error "dieselConsumption" (toString consVal) acc
  | None => acc
  end.

(** Lines 110-123: the two writes share one [try] block, so the second
    is not reached when the first throws. *)
Definition store_rates (acc : gmap string string * list string)
    : gmap string string * list string :=
  match parseFloat priceInput with
  | Some priceVal =>
      match setItem acc.1 "dieselPrice" (toString priceVal) with
      | Some ls => store_consumption (ls, acc.2)
      | None => (acc.1, (acc.2 ++ [diesel_error])%list)
      end
  | None => store_consumption acc
  end.

(** [proceed], lines 87-127.  The write of [hasData] is not guarded: when
    it throws, the exception leaves [proceed] and the page does not
    move. *)
Definition proceed (st : state) : state :=
  let acc :=
    store_rates
      (store_heating (store_files (results st) (localStorage st, console st))) in
  match setItem acc.1 "hasData" "true" with
  | Some ls =>
      {| results := results st;
         pending := pending st;
         localStorage := ls;
         alerts := alerts st;
         console := acc.2;
         navigations := S (navigations st);
         uncaught := uncaught st |}
  | None =>
      {| results := results st;
         pending := pending st;
         localStorage := acc.1;
         alerts := alerts st;
         console := acc.2;
         navigations := navigations st;
         uncaught := S (uncaught st) |}
  end.

(** [if (pending === 0) proceed()] *)
Definition proceed_if_done (st : state) : state :=
  if pending st =? 0 then proceed st else st.

(** [readerLoaded] and the [onerror] handler. *)
Definition handle (st : state) (ev : event) : state :=
  match ev with
  | Loaded key text =>
      proceed_if_done
        {| results := <[key := text]> (results st);
           pending := pending st - 1;
           localStorage := localStorage st;
           alerts := alerts st;
           console := console st;
           navigations := navigations st;
           uncaught := uncaught st |}
  | Failed key =>
      proceed_if_done
        {| results := <[key := ""]> (results st);
           pending := pending st - 1;
           localStorage := localStorage st;
           alerts := S (alerts st);
           console := console st;
           navigations := navigations st;
           uncaught := uncaught st |}
  end.

(** Lines 129-145: a reader is started for each input that holds a file. *)
Definition start_read (st : state) (key : string) : state :=
  if files key then
    {| results := results st;
       pending := pending st + 1;
       localStorage := localStorage st;
       alerts := alerts st;
       console := console st;
       navigations := navigations st;
       uncaught := uncaught st |}
  else
    {| results := <[key := ""]> (results st);
       pending := pending st;
       localStorage := localStorage st;
       alerts := alerts st;
       console := console st;
       navigations := navigations st;
       uncaught := uncaught st |}.

(** The click handler up to its return, on a storage [ls]. *)
Definition submit (ls : gmap string string) : state :=
  let st0 :=
    {| results := ∅; pending := 0; localStorage := ls;
       alerts := 0; console := []; navigations := 0; uncaught := 0 |} in
  if negb (existsb files fileInputs) then
    {| results := ∅; pending := 0; localStorage := ls;
       alerts := 1; console := []; navigations := 0; uncaught := 0 |}
  else proceed_if_done (fold_left start_read fileInputs st0).

(** The click, then the completions of the readers in the order they
    arrive. *)
Definition run (ls : gmap string string) (events : list event) : state :=
  fold_left handle events (submit ls).

End Handlers.

End DataPage.

(** ** init: what it reads back from the storage *)

(** [txt && txt.trim().length > 0] *)
Definition not_blank (txt : string) : bool :=
  negb (Js.is_empty txt) && (0 <? String.length (Js.trim txt))%nat.

(** Lines 422-428: the stored texts that are not blank, in key order. *)
Definition csvTexts (ls : gmap string string) : list string :=
  List.filter not_blank
    (map (fun key => or_else (ls !! key) "") DataPage.fileInputs).

Section Init.

Variable parseFloat : string -> option Q.

(** Lines 449-456: a stored rate replaces the current one when it reads
    as a number; [getItem] gives [null] for a missing key, which
    [parseFloat] reads as the text [null]. *)
Definition load_rates (ls : gmap string string) (cfg : rates) : rates :=
  let storedPrice := parseFloat (default "null" (ls !! "dieselPrice")) in
  let storedConsumption := parseFloat (default "null" (ls !! "dieselConsumption")) in
  {| dieselPrice := default (dieselPrice cfg) storedPrice;
     dieselConsumption := default (dieselConsumption cfg) storedConsumption |}.

(** How [init] starts: no data message, empty files message, or the texts
    to parse with the rates in force. *)
Inductive startup :=
  | NoData
  | EmptyFiles
  | Ready (texts : list string) (cfg : rates).

Definition init (ls : gmap string string) : startup :=
  match or_else (ls !! "hasData") "" with
  | EmptyString => NoData
  | _ =>
      match csvTexts ls with
      | [] => EmptyFiles
      | texts => Ready texts (load_rates ls default_rates)
      end
  end.

End Init.

(** ** Further notions *)

(** The timestamps of the rows that have one, in row order. *)
Definition resolved (Date_getTime : string -> option Z)
    (tables : list (list row)) : list Z :=
  omap (row_timestamp Date_getTime) (concat tables).

Definition resolvable (Date_getTime : string -> option Z) (r : row) : bool :=
  match row_timestamp Date_getTime r with Some _ => true | None => false end.

(** The number of points a map holds. *)
Definition total_points (md : gmap Z (list point)) : nat :=
  sum_list (map (fun e => length (snd e)) (map_to_list md)).

Fixpoint map_chars (f : ascii -> ascii) (s : string) : string :=
  match s with
  | EmptyString => EmptyString
  | String c r => String (f c) (map_chars f r)
  end.

(** Slashes for dashes and dashes for slashes. *)
Definition swap_sep (c : ascii) : ascii :=
  if Ascii.eqb c "/" then "-"%char
  else if Ascii.eqb c "-" then "/"%char
  else c.

(** The two bounds against a list of timestamps: both at their start
    values when the list is empty, else at its least and greatest
    element. *)
Definition extremes (l : list Z) (lo hi : bound) : Prop :=
  match lo, hi with
  | Infinity, NegInfinity => l = []
  | At a, At b => In a l /\ In b l /\ forall ts, In ts l -> a <= ts <= b
  | _, _ => False
  end.

(** Every list stored in the map has a point. *)
Definition no_empty_series (md : gmap Z (list point)) : Prop :=
  forall motorId series, md !! motorId = Some series -> series <> [].

(** [availabilityMs] and [economiaMs] when the loop of [computeMetrics]
    ends; both are zero when the window keeps no point. *)
Definition durations (dataArr : list point) (startTime endTime : Z) : Z * Z :=
  match List.filter (in_range startTime endTime) dataArr with
  | [] => (0, 0)
  | first :: rest => accumulate first rest
  end.

(** The storage [proceed] leaves when every write is taken. *)
Definition written (parseFloat : string -> option Q) (toString : Q -> string)
    (heating priceInput consumptionInput : string)
    (results ls : gmap string string) : gmap string string :=
  let ls1 :=
    fold_left (fun ls id => <[id := or_else (results !! id) ""]> ls)
      DataPage.fileInputs ls in
  let ls2 := <["heating" := heating]> ls1 in
  let ls3 :=
    match parseFloat priceInput with
    | Some priceVal => <["dieselPrice" := toString priceVal]> ls2
    | None => ls2
    end in
  let ls4 :=
    match parseFloat consumptionInput with
    | Some consVal => <["dieselConsumption" := toString consVal]> ls3
    | None => ls3
    end in
  <["hasData" := "true"]> ls4.

(** [results] after a sequence of completions. *)
Definition apply_events (events : list DataPage.event)
    (results : gmap string string) : gmap string string :=
  fold_left
    (fun r ev => <[DataPage.event_key ev := DataPage.event_text ev]> r)
    events results.

(** The text read for an input: the one its reader delivered, empty when
    the reader failed or the input held no file. *)
Definition content (events : list DataPage.event) (key : string) : string :=
  match List.find (fun ev => String.eqb (DataPage.event_key ev) key) events with
  | Some ev => DataPage.event_text ev
  | None => ""
  end.

(** The alerts raised by failed readers. *)
Definition failures (events : list DataPage.event) : nat :=
  length (List.filter
            (fun ev => match ev with DataPage.Failed _ => true | _ => false end)
            events).

(** A visit of the data entry page: files in the second and fourth
    inputs, the fourth read first, the second failing. *)
Definition example_files (key : string) : bool :=
  String.eqb key "group2" || String.eqb key "group4".

Definition example_events : list DataPage.event :=
  [ DataPage.Loaded "group4" "$Date,$Time,SCA071TE402PV"; DataPage.Failed "group2" ].

(** Storages: one that takes every write, one that takes none, one that
    refuses every text longer than four characters, and one that refuses
    the price. *)
Definition roomy (ls : gmap string string) (key value : string) : bool := true.

Definition full (ls : gmap string string) (key value : string) : bool := false.


Definition no_price (ls : gmap string string) (key value : string) : bool :=
  negb (String.eqb key "dieselPrice").

(** The page of that visit: price field ["5.5"], consumption field left
    with a text that is no number. *)
Definition example_run (accepts : gmap string string -> string -> string -> bool)
    (ls : gmap string string) : DataPage.state :=
  DataPage.run Host.parseFloat (fun _ => "5.5") accepts example_files "{}" "5.5" "abc"
    ls example_events.

(** What an earlier visit left in the storage. *)
Definition earlier_visit : gmap string string :=
  {[ "group4" := "old"; "dieselConsumption" := "7.1" ]}.

(** The same visit with both number fields filled. *)
Definition example_run_rates (accepts : gmap string string -> string -> string -> bool)
    (ls : gmap string string) : DataPage.state :=
  DataPage.run Host.parseFloat (fun _ => "5.5") accepts example_files "{}" "5.5" "5.5"
    ls example_events.

(** ** Lemmas on the string operations *)

Ltac zbool :=
  repeat match goal with
  | H : (_ >? _) = true |- _ => apply Z.gtb_lt in H
  | H : (_ >? _) = false |- _ => rewrite Z.gtb_ltb in H; apply Z.ltb_ge in H
  | H : (_ >=? _) = true |- _ => apply Z.geb_le in H
  | H : (_ >=? _) = false |- _ => rewrite Z.geb_leb in H; apply Z.leb_gt in H
  | H : (_ <=? _) = true |- _ => apply Z.leb_le in H
  | H : (_ <=? _) = false |- _ => apply Z.leb_gt in H
  | H : (_ <? _) = true |- _ => apply Z.ltb_lt in H
  | H : (_ <? _) = false |- _ => apply Z.ltb_ge in H
  end.

Lemma split_pieces sep s :
  Forall (fun p => all_chars (fun c => negb (sep c)) p = true) (Js.split sep s).
Proof.
  induction s as [|c r IH]; simpl.
  - by constructor.
  - destruct (sep c) eqn:Hc.
    + by constructor.
    + destruct (Js.split sep r) as [|p ps].
      * constructor; [by simpl; rewrite Hc | constructor].
      * inversion IH; subst. constructor; [|done]. simpl. by rewrite Hc.
Qed.

Lemma split_whole sep a :
  all_chars (fun c => negb (sep c)) a = true -> Js.split sep a = [a].
Proof.
  induction a as [|c r IH]; simpl; [done|].
  intros [Hc Hr]%andb_prop. apply negb_true_iff in Hc. rewrite Hc, (IH Hr). done.
Qed.

Lemma split_join sep a c r :
  all_chars (fun c => negb (sep c)) a = true -> sep c = true ->
  Js.split sep (a +:+ String c r) = a :: Js.split sep r.
Proof.
  intros Ha Hc. induction a as [|d a IH]; simpl.
  - by rewrite Hc.
  - simpl in Ha. apply andb_prop in Ha as [Hd Ha]. apply negb_true_iff in Hd.
    rewrite Hd, (IH Ha). done.
Qed.

Lemma is_empty_join a c r : Js.is_empty (a +:+ String c r) = false.
Proof. by destruct a. Qed.

Lemma is_empty_true s : Js.is_empty s = true <-> s = "".
Proof. by destruct s. Qed.

Lemma digits_some a s : is_Some (Js.digits (Some a) s).
Proof.
  revert a. induction s as [|c r IH]; intros a; simpl; [by eexists|].
  destruct (Js.is_digit c); [apply IH | by eexists].
Qed.

Lemma digits_none s :
  Js.digits None s = None <->
  match s with String c _ => Js.is_digit c = false | EmptyString => True end.
Proof.
  destruct s as [|c r]; simpl; [done|].
  destruct (Js.is_digit c); [|done].
  split; [|done]. intros H. destruct (digits_some (10 * 0 + Js.digit_val c) r) as [x Hx].
  simpl in Hx. congruence.
Qed.

Lemma parseInt_leading_number s :
  Js.parseInt s = None <-> leading_number s = false.
Proof.
  unfold Js.parseInt, leading_number.
  assert (Hd : forall r, Js.digits None r = None <->
     match r with String c _ => Js.is_digit c | EmptyString => false end = false).
  { intros r. rewrite digits_none. by destruct r. }
  assert (Hm : forall r, Z.opp <$> Js.digits None r = None <-> Js.digits None r = None).
  { intros r. by destruct (Js.digits None r). }
  destruct (Js.trim_start s) as [|c r]; [by apply (Hd "")|].
  destruct c as [[] [] [] [] [] [] [] []]; try apply (Hd (String _ r)).
  - apply Hd.
  - rewrite Hm. apply Hd.
Qed.

(** ** parseTimestamp *)

Lemma split_three_nonempty dateStr s1 s2 s3 rest :
  Js.split date_sep dateStr = s1 :: s2 :: s3 :: rest -> Js.is_empty dateStr = false.
Proof. by destruct dateStr. Qed.

(** C1. When the date text splits into the parts [s1], [s2], [s3] (and
    possibly more) that read as the numbers [p1], [p2], [p3], and the time
    text is not empty, [parseTimestamp] hands [Date] the text built from
    these fields: month [p1] and day [p2] if [p2 > 12] and [p1 <= 12];
    otherwise day [p1] and month [p2] if [p1 > 12] and [p2 <= 12];
    otherwise month [p1] and day [p2]; the year is [p3 + 2000] when
    [p3 < 100] and [p3] otherwise. *)
Theorem parseTimestamp_assignment (Date_getTime : string -> option Z)
    dateStr timeStr s1 s2 s3 rest p1 p2 p3 :
  Js.split date_sep dateStr = s1 :: s2 :: s3 :: rest ->
  Js.parseInt s1 = Some p1 ->
  Js.parseInt s2 = Some p2 ->
  Js.parseInt s3 = Some p3 ->
  timeStr <> "" ->
  let f := assign_fields p1 p2 p3 in
  parseTimestamp Date_getTime dateStr timeStr = Date_getTime (iso f timeStr) /\
  (p2 > 12 /\ p1 <= 12 -> month f = p1 /\ day f = p2) /\
  (~ (p2 > 12 /\ p1 <= 12) -> p1 > 12 /\ p2 <= 12 -> day f = p1 /\ month f = p2) /\
  (~ (p2 > 12 /\ p1 <= 12) -> ~ (p1 > 12 /\ p2 <= 12) -> month f = p1 /\ day f = p2) /\
  (p3 < 100 -> year f = p3 + 2000) /\
  (100 <= p3 -> year f = p3).
Proof.
  intros Hs H1 H2 H3 Ht f. split.
  - unfold parseTimestamp.
    rewrite (split_three_nonempty _ _ _ _ _ Hs).
    destruct timeStr; [done|]. simpl Js.is_empty. simpl orb. cbv iota.
    rewrite Hs. simpl. by rewrite H1, H2, H3.
  - subst f. unfold assign_fields.
    destruct (p2 >? 12) eqn:E1, (p1 <=? 12) eqn:E2, (p1 >? 12) eqn:E3,
      (p2 <=? 12) eqn:E4; simpl; destruct (p3 <? 100) eqn:E5; simpl;
      zbool; lia.
Qed.

Lemma parseTimestamp_assignment_witness :
  parseTimestamp Host.Date_utc "03/15/24" "10:00"
  = Host.Date_utc (iso {| day := 15; month := 3; year := 2024 |} "10:00") /\
  parseTimestamp Host.Date_utc "15-03-2024" "10:00"
  = Host.Date_utc (iso {| day := 15; month := 3; year := 2024 |} "10:00").
Proof.
  split.
  - exact (proj1 (parseTimestamp_assignment Host.Date_utc "03/15/24" "10:00"
                    "03" "15" "24" [] 3 15 24
                    eq_refl eq_refl eq_refl eq_refl ltac:(discriminate))).
  - exact (proj1 (parseTimestamp_assignment Host.Date_utc "15-03-2024" "10:00"
                    "15" "03" "2024" [] 15 3 2024
                    eq_refl eq_refl eq_refl eq_refl ltac:(discriminate))).
Defined.

(** C10. Parts after the third are ignored: a date text with more than
    three parts resolves like the text made of its first three parts; in
    particular ["15/03/24/99"] resolves like ["15/03/24"], whatever the
    time text. *)
Theorem parseTimestamp_extra_parts (Date_getTime : string -> option Z) timeStr :
  parseTimestamp Date_getTime "15/03/24/99" timeStr
  = parseTimestamp Date_getTime "15/03/24" timeStr /\
  forall dateStr s1 s2 s3 rest,
    Js.split date_sep dateStr = s1 :: s2 :: s3 :: rest ->
    parseTimestamp Date_getTime dateStr timeStr
    = parseTimestamp Date_getTime (s1 +:+ "/" +:+ s2 +:+ "/" +:+ s3) timeStr.
Proof.
  split; [done|].
  intros dateStr s1 s2 s3 rest Hs.
  pose proof (split_pieces date_sep dateStr) as Hp. rewrite Hs in Hp.
  apply Forall_cons in Hp as [F1 Hp]. apply Forall_cons in Hp as [F2 Hp].
  apply Forall_cons in Hp as [F3 _].
  assert (Hj : Js.split date_sep (s1 +:+ "/" +:+ s2 +:+ "/" +:+ s3) = [s1; s2; s3]).
  { change (s1 +:+ "/" +:+ s2 +:+ "/" +:+ s3)
      with (s1 +:+ String "/" (s2 +:+ String "/" s3)).
    rewrite split_join by done. rewrite split_join by done.
    by rewrite split_whole. }
  unfold parseTimestamp.
  rewrite (split_three_nonempty _ _ _ _ _ Hs).
  change (s1 +:+ "/" +:+ s2 +:+ "/" +:+ s3)
    with (s1 +:+ String "/" (s2 +:+ String "/" s3)) in *.
  rewrite is_empty_join, Hs, Hj. done.
Qed.

Lemma parseTimestamp_extra_parts_witness :
  parseTimestamp Host.Date_utc "13-03-2024-7-8" "10:00"
  = parseTimestamp Host.Date_utc "13/03/2024" "10:00".
Proof.
  exact (proj2 (parseTimestamp_extra_parts Host.Date_utc "10:00")
           "13-03-2024-7-8" "13" "03" "2024" ["7"; "8"] eq_refl).
Defined.

(** Reading back, on the reference host, the text [iso] assembles. *)

Lemma take_digits_app s : forall acc v rest,
  Host.take_digits (String.length s) acc s = Some (v, "") ->
  Host.take_digits (String.length s) acc (s +:+ rest) = Some (v, rest).
Proof.
  induction s as [|c s IH]; intros acc v rest.
  - cbn. by intros [= ->].
  - change (String c s +:+ rest) with (String c (s +:+ rest)).
    cbn [String.length Host.take_digits].
    destruct (Js.is_digit c); [apply IH | done].
Qed.

Lemma pad_read (w : nat) (l : list Z) :
  forallb (fun z =>
    match Host.take_digits w 0 (Js.padStart0 w (Js.toString z)) with
    | Some (v, EmptyString) =>
        (v =? z) && Nat.eqb (String.length (Js.padStart0 w (Js.toString z))) w
    | _ => false
    end) l = true ->
  forall z rest, In z l ->
  Host.take_digits w 0 (Js.padStart0 w (Js.toString z) +:+ rest) = Some (z, rest).
Proof.
  intros Hall z rest Hin.
  rewrite List.forallb_forall in Hall. apply Hall in Hin.
  set (s := Js.padStart0 w (Js.toString z)) in *. clearbody s.
  destruct (Host.take_digits w 0 s) as [[v [|? ?]]|] eqn:E; try done.
  apply andb_true_iff in Hin as [Hv Hl].
  apply Z.eqb_eq in Hv as ->. apply Nat.eqb_eq in Hl. subst w.
  by apply take_digits_app.
Qed.

Lemma below_100 z : 0 <= z <= 99 -> In z (map Z.of_nat (seq 0 100)).
Proof.
  intros Hz. apply in_map_iff. exists (Z.to_nat z).
  split; [lia | apply in_seq; lia].
Qed.

Lemma two_digits_read z rest : 0 <= z <= 99 ->
  Host.take_digits 2 0 (Js.padStart0 2 (Js.toString z) +:+ rest) = Some (z, rest).
Proof.
  intros Hz. apply (pad_read 2 (map Z.of_nat (seq 0 100)));
    [vm_compute; reflexivity | by apply below_100].
Qed.

Lemma year_read z rest : 0 <= z <= 9999 ->
  Host.take_digits 4 0 (Js.padStart0 4 (Js.toString z) +:+ rest) = Some (z, rest).
Proof.
  intros Hz.
  apply (pad_read 4
           (flat_map (fun a => map (fun b => 100 * a + b) (map Z.of_nat (seq 0 100)))
              (map Z.of_nat (seq 0 100)))); [vm_compute; reflexivity|].
  apply in_flat_map. exists (z / 100).
  split; [apply below_100; Z.div_mod_to_equations; lia|].
  apply in_map_iff. exists (z mod 100).
  split; [|apply below_100]; Z.div_mod_to_equations; lia.
Qed.

Lemma expect_here (c : ascii) rest :
  Host.expect c (String c EmptyString +:+ rest) = Some rest.
Proof.
  change (String c EmptyString +:+ rest) with (String c rest).
  cbn [Host.expect]. by rewrite Ascii.eqb_refl.
Qed.

Lemma Date_getTime_iso tz f timeStr :
  0 <= year f <= 9999 -> 0 <= month f <= 99 -> 0 <= day f <= 99 ->
  Host.Date_getTime tz (iso f timeStr)
  = ms ← Host.time_of_day tz (Js.trim timeStr);
    if format_date f
    then Some (Host.day_number (year f) (month f) (day f) * 86400000 + ms)
    else None.
Proof.
  intros Hy Hm Hd. unfold Host.Date_getTime, iso.
  rewrite year_read by done. cbn [mbind option_bind].
  rewrite expect_here. cbn [mbind option_bind].
  rewrite two_digits_read by done. cbn [mbind option_bind].
  rewrite expect_here. cbn [mbind option_bind].
  rewrite two_digits_read by done. cbn [mbind option_bind].
  rewrite expect_here. cbn [mbind option_bind].
  reflexivity.
Qed.

(** C7 (as stated it fails twice: a part such as ["12abc"] is not
    numeric, yet the timestamp resolves; and 30 February is no date of
    the calendar, yet ["02/30/24"] resolves, to 1 March, on a host that
    reads the date-time format as V8 does).  [parseTimestamp] fails
    exactly when: either text is empty, or the date text has fewer than
    three parts, or one of the first three parts does not start, after
    white space and one optional sign, with a decimal digit, or [Date]
    does not accept the text built from the resolved fields and the
    trimmed time text.  In particular it fails on [("", "10:00")] and on
    [("03/15/24", "")].  The code checks no range of its own; on the
    reference host, for a year that prints with four digits, a month and
    a day that print with two, and a time the host accepts, failure is
    exactly a month outside 1 to 12 or a day outside 1 to 31, and a day
    up to 31 past the end of its month counts on into the next month. *)
Theorem parseTimestamp_failure (Date_getTime : string -> option Z) dateStr timeStr :
  let parts := Js.split date_sep dateStr in
  (parseTimestamp Date_getTime dateStr timeStr = None <->
   dateStr = "" \/ timeStr = "" \/ (length parts < 3)%nat \/
   (exists i, (i < 3)%nat /\ leading_number (nth i parts "") = false) \/
   (exists p1 p2 p3,
      Js.parseInt (nth 0 parts "") = Some p1 /\
      Js.parseInt (nth 1 parts "") = Some p2 /\
      Js.parseInt (nth 2 parts "") = Some p3 /\
      Date_getTime (iso (assign_fields p1 p2 p3) timeStr) = None)) /\
  parseTimestamp Date_getTime "" "10:00" = None /\
  parseTimestamp Date_getTime "03/15/24" "" = None /\
  (forall tz p1 p2 p3 ms,
     (3 <= length parts)%nat ->
     Js.parseInt (nth 0 parts "") = Some p1 ->
     Js.parseInt (nth 1 parts "") = Some p2 ->
     Js.parseInt (nth 2 parts "") = Some p3 ->
     let f := assign_fields p1 p2 p3 in
     0 <= year f <= 9999 -> 0 <= month f <= 99 -> 0 <= day f <= 99 ->
     Host.time_of_day tz (Js.trim timeStr) = Some ms ->
     parseTimestamp (Host.Date_getTime tz) dateStr timeStr
     = if format_date f
       then Some (Host.day_number (year f) (month f) (day f) * 86400000 + ms)
       else None).
Proof.
  intros parts. split; [|split; [done|split; [done|]]].
  2:{ intros tz p1 p2 p3 ms Hlen E1 E2 E3 f Hy Hm Hd Ht.
      unfold parseTimestamp. fold parts.
      destruct dateStr as [|c dateStr]; [cbn in Hlen; lia|].
      destruct timeStr as [|c' timeStr]; [done|].
      cbn [Js.is_empty orb].
      assert ((length parts <? 3)%nat = false) as -> by (apply Nat.ltb_ge; lia).
      rewrite E1, E2, E3. fold f.
      rewrite Date_getTime_iso by done. by rewrite Ht. }
  unfold parseTimestamp. fold parts.
  destruct (Js.is_empty dateStr) eqn:Ed.
  { apply is_empty_true in Ed. simpl. tauto. }
  destruct (Js.is_empty timeStr) eqn:Et.
  { apply is_empty_true in Et. simpl. tauto. }
  assert (Nd : dateStr <> "") by (intros ->; discriminate).
  assert (Nt : timeStr <> "") by (intros ->; discriminate).
  simpl orb. cbv iota.
  destruct (length parts <? 3)%nat eqn:El.
  { apply Nat.ltb_lt in El. tauto. }
  apply Nat.ltb_ge in El.
  destruct (Js.parseInt (nth 0 parts "")) as [p1|] eqn:E1; cycle 1.
  { split; [|done]. intros _. do 3 right. left. exists 0%nat.
    split; [lia|]. by apply parseInt_leading_number. }
  destruct (Js.parseInt (nth 1 parts "")) as [p2|] eqn:E2; cycle 1.
  { split; [|done]. intros _. do 3 right. left. exists 1%nat.
    split; [lia|]. by apply parseInt_leading_number. }
  destruct (Js.parseInt (nth 2 parts "")) as [p3|] eqn:E3; cycle 1.
  { split; [|done]. intros _. do 3 right. left. exists 2%nat.
    split; [lia|]. by apply parseInt_leading_number. }
  split.
  - intros H. do 4 right. by exists p1, p2, p3.
  - intros [?|[?|[?|[(i & Hi & Hn)|(q1 & q2 & q3 & ? & ? & ? & H)]]]];
      [done | done | lia | | congruence].
    apply parseInt_leading_number in Hn.
    destruct i as [|[|[|i]]]; [congruence | congruence | congruence | lia].
Qed.

Lemma parseTimestamp_failure_witness :
  parseTimestamp Host.Date_utc "15/03/24" "10:00" = Some 1710496800000 /\
  parseTimestamp Host.Date_utc "15/13/24" "10:00" = None /\
  parseTimestamp Host.Date_utc "04/31/24" "10:00"
  = parseTimestamp Host.Date_utc "05/01/24" "10:00".
Proof.
  split; [|split].
  - exact (proj2 (proj2 (proj2 (parseTimestamp_failure Host.Date_utc "15/03/24" "10:00")))
             0 15 3 24 36000000 ltac:(vm_compute; lia) eq_refl eq_refl eq_refl
             ltac:(vm_compute; split; discriminate)
             ltac:(vm_compute; split; discriminate)
             ltac:(vm_compute; split; discriminate) eq_refl).
  - exact (proj2 (proj2 (proj2 (parseTimestamp_failure Host.Date_utc "15/13/24" "10:00")))
             0 15 13 24 36000000 ltac:(vm_compute; lia) eq_refl eq_refl eq_refl
             ltac:(vm_compute; split; discriminate)
             ltac:(vm_compute; split; discriminate)
             ltac:(vm_compute; split; discriminate) eq_refl).
  - etransitivity; [|reflexivity].
    exact (proj2 (proj2 (proj2 (parseTimestamp_failure Host.Date_utc "04/31/24" "10:00")))
             0 4 31 24 36000000 ltac:(vm_compute; lia) eq_refl eq_refl eq_refl
             ltac:(vm_compute; split; discriminate)
             ltac:(vm_compute; split; discriminate)
             ltac:(vm_compute; split; discriminate) eq_refl).
Defined.

Lemma parseTimestamp_failure_counterexample :
  (failure_as_stated "12abc/13/24" "10:00" /\
   parseTimestamp Host.Date_utc "12abc/13/24" "10:00" = Some 1734084000000) /\
  (failure_as_stated "02/30/24" "10:00" /\
   parseTimestamp Host.Date_utc "02/30/24" "10:00" = Some 1709287200000 /\
   parseTimestamp Host.Date_utc "02/30/24" "10:00"
   = parseTimestamp Host.Date_utc "03/01/24" "10:00").
Proof.
  split; split.
  - do 3 right. left. exists 0%nat. split; [lia | reflexivity].
  - reflexivity.
  - do 4 right. exists 2, 30, 24. repeat split; reflexivity.
  - split; reflexivity.
Qed.

(** ** computeMetrics *)

Lemma Qgtb_lt x y : Qgtb x y = true <-> (y < x)%Q.
Proof.
  unfold Qgtb. rewrite negb_true_iff. split.
  - intros H. apply Qnot_le_lt. intros Hle. apply Qle_bool_iff in Hle. congruence.
  - intros H. destruct (Qle_bool x y) eqn:E; [|done].
    apply Qle_bool_iff in E. by apply Qlt_not_le in H.
Qed.

Lemma both_exceed {A} thr x y (a b : A) :
  (if Qgtb x thr && Qgtb y thr then a else b)
  = if Qlt_le_dec thr x then if Qlt_le_dec thr y then a else b else b.
Proof.
  destruct (Qlt_le_dec thr x) as [Hx|Hx], (Qlt_le_dec thr y) as [Hy|Hy];
    destruct (Qgtb x thr) eqn:Ex, (Qgtb y thr) eqn:Ey; simpl; try done;
    repeat match goal with
    | H : Qgtb _ _ = true |- _ => apply Qgtb_lt in H
    | H : Qgtb ?a ?b = false, L : (?b < ?a)%Q |- _ =>
        apply Qgtb_lt in L; congruence
    | H : (?a < ?b)%Q, L : (?b <= ?a)%Q |- _ => by apply Qlt_not_le in H
    end.
Qed.

Lemma in_range_spec startTime endTime p :
  in_range startTime endTime p = true <-> startTime <= t p <= endTime.
Proof.
  unfold in_range. rewrite andb_true_iff, Z.geb_le, Z.leb_le. done.
Qed.

Lemma last_cons {A} (x d : A) l : List.last (x :: l) d = List.last l x.
Proof.
  revert x d. induction l as [|y l IH]; intros x d; [done|].
  change (List.last (x :: y :: l) d) with (List.last (y :: l) d).
  by rewrite !IH.
Qed.

Lemma step_interval a e prev curr :
  step (a, e, prev) curr
  = (a + interval_above 50 prev curr, e + interval_above 40 prev curr, curr).
Proof.
  unfold step, interval_above. rewrite !both_exceed.
  destruct (Qlt_le_dec 50 (value prev)), (Qlt_le_dec 50 (value curr)),
    (Qlt_le_dec 40 (value prev)), (Qlt_le_dec 40 (value curr));
    do 2 f_equal; lia.
Qed.

Lemma step_loop rest : forall p a e,
  fold_left step rest (a, e, p)
  = (a + qualifying 50 (p :: rest), e + qualifying 40 (p :: rest),
     List.last rest p).
Proof.
  induction rest as [|curr rest IH]; intros p a e.
  - simpl. do 2 f_equal; lia.
  - cbn [fold_left]. rewrite step_interval, IH.
    change (qualifying 50 (p :: curr :: rest))
      with (interval_above 50 p curr + qualifying 50 (curr :: rest)).
    change (qualifying 40 (p :: curr :: rest))
      with (interval_above 40 p curr + qualifying 40 (curr :: rest)).
    rewrite last_cons. do 2 f_equal; lia.
Qed.

Lemma accumulate_qualifying first rest :
  accumulate first rest
  = (qualifying 50 (first :: rest), qualifying 40 (first :: rest)).
Proof. unfold accumulate. rewrite step_loop. done. Qed.

Lemma filter_sublist {A} (f : A -> bool) (l : list A) :
  sublist (List.filter f l) l.
Proof.
  induction l as [|x l IH]; simpl; [constructor|].
  destruct (f x); by constructor.
Qed.

Lemma filter_sorted f l : sorted_by_t l -> sorted_by_t (List.filter f l).
Proof.
  induction 1 as [|p l Hs IH Hp]; simpl; [constructor|].
  destruct (f p); [|done]. constructor; [done|].
  apply List.Forall_forall. intros q [Hq _]%filter_In.
  by apply (proj1 (List.Forall_forall _ _) Hp).
Qed.

Lemma qualifying_nonneg thr l : sorted_by_t l -> 0 <= qualifying thr l.
Proof.
  induction 1 as [|p l Hs IH Hp]; simpl; [done|].
  destruct l as [|q l']; [done|].
  apply Forall_cons in Hp as [Hpq _]. unfold interval_above.
  destruct (Qlt_le_dec thr (value p)), (Qlt_le_dec thr (value q)); lia.
Qed.

Lemma hours_nonneg ms : 0 <= ms -> (0 <= inject_Z ms / 3600000)%Q.
Proof. intros H. unfold Qdiv, Qmult, Qle. simpl. lia. Qed.

Lemma computeMetrics_filtered cfg dataArr startTime endTime :
  computeMetrics cfg dataArr startTime endTime =
  match List.filter (in_range startTime endTime) dataArr with
  | [] => no_metrics
  | first :: rest =>
      let filtered := first :: rest in
      let economiaLitros :=
        (inject_Z (qualifying 40 filtered) / 3600000 * dieselConsumption cfg)%Q in
      {| availability := format_availability (qualifying 50 filtered);
         economiaLitros := economiaLitros;
         economiaRS := (economiaLitros * dieselPrice cfg)%Q;
         economiaMes := (economiaLitros * dieselPrice cfg * 30)%Q;
         lastTemperature := Some (value (List.last filtered first)) |}
  end.
Proof.
  unfold computeMetrics. destruct dataArr as [|p l]; [done|].
  destruct (List.filter (in_range startTime endTime) (p :: l)) as [|first rest];
    [done|].
  by rewrite accumulate_qualifying.
Qed.

(** C2. [computeMetrics] keeps the points of the series that lie in the
    window, in their order; over the neighbouring pairs of the kept
    sequence the availability accumulator receives [curr.t - prev.t]
    exactly when both values exceed 50, and the savings accumulator the
    same interval exactly when both exceed 40; a kept sequence of one
    point leaves both accumulators at zero.  The two sums are what the
    availability text and the saved litres are computed from. *)
Theorem computeMetrics_accumulators cfg dataArr startTime endTime :
  let filtered := List.filter (in_range startTime endTime) dataArr in
  let m := computeMetrics cfg dataArr startTime endTime in
  (forall p, In p filtered <-> In p dataArr /\ startTime <= t p <= endTime) /\
  sublist filtered dataArr /\
  (forall a e prev curr,
     step (a, e, prev) curr
     = (a + interval_above 50 prev curr, e + interval_above 40 prev curr, curr)) /\
  (forall p, accumulate p [] = (0, 0)) /\
  match filtered with
  | [] => m = no_metrics
  | first :: rest =>
      accumulate first rest = (qualifying 50 filtered, qualifying 40 filtered) /\
      availability m = format_availability (qualifying 50 filtered) /\
      economiaLitros m
      = (inject_Z (qualifying 40 filtered) / 3600000 * dieselConsumption cfg)%Q
  end.
Proof.
  intros filtered m. split; [|split; [|split; [|split]]].
  - intros p. subst filtered. by rewrite filter_In, in_range_spec.
  - apply filter_sublist.
  - apply step_interval.
  - done.
  - subst m. rewrite computeMetrics_filtered. fold filtered.
    destruct filtered as [|first rest]; [done|].
    by rewrite accumulate_qualifying.
Qed.

Lemma sorted_snoc l q :
  sorted_by_t (l ++ [q]) -> forall p, In p l -> t p <= t q.
Proof.
  induction l as [|x l IH]; simpl; [done|].
  intros [Hs Hx]%StronglySorted_inv p [->|Hp].
  - apply (proj1 (List.Forall_forall _ _) Hx). apply in_or_app. right. by left.
  - by apply IH.
Qed.

(** The amounts of the worked example, computed in binary64 as the
    program does: the doubles obtained are the ones the decimal texts
    6.30, 33.39 and 1001.70 denote, so exact arithmetic loses nothing
    there. *)
#[warnings="-inexact-float"] Lemma worked_example_binary64 :
  let litros := (3600000 / 3600000 * 6.30)%float in
  let rs := (litros * 5.30)%float in
  let mes := (rs * 30)%float in
  (PrimFloat.eqb litros 6.30 && PrimFloat.eqb rs 33.39
   && PrimFloat.eqb mes 1001.70)%float = true.
Proof. vm_compute. reflexivity. Qed.

(** The availability text follows binary64: 61 minutes give a quotient
    whose fraction times 60 falls just below 1, so no minute is shown. *)
Lemma availability_binary64 :
  map format_availability [0; 3600000; 3660000; 5400000]
  = ["00:00 h"; "01:00 h"; "01:00 h"; "01:30 h"].
Proof. vm_compute. reflexivity. Qed.

(** C3 (as stated it fails: a negative rate gives negative amounts).
    Whatever the series and the window, the saved litres are the savings
    duration in hours times the consumption rate, the saved currency is
    the saved litres times the price, and the monthly projection is the
    saved currency times 30; for a series sorted by [t] and rates that
    are not negative, none of the three is negative.  For the two-point
    series of the example, any window covering both points, consumption
    6.30 and price 5.30, they are 6.30, 33.39 and 1001.70. *)
Theorem computeMetrics_savings cfg dataArr startTime endTime :
  let filtered := List.filter (in_range startTime endTime) dataArr in
  let m := computeMetrics cfg dataArr startTime endTime in
  (economiaLitros m
   == inject_Z (qualifying 40 filtered) / 3600000 * dieselConsumption cfg)%Q /\
  (economiaRS m == economiaLitros m * dieselPrice cfg)%Q /\
  (economiaMes m == economiaRS m * 30)%Q /\
  (sorted_by_t dataArr ->
   (0 <= dieselConsumption cfg)%Q -> (0 <= dieselPrice cfg)%Q ->
   (0 <= economiaLitros m)%Q /\ (0 <= economiaRS m)%Q /\ (0 <= economiaMes m)%Q) /\
  (startTime <= 0 -> 3600000 <= endTime ->
   let m2 := computeMetrics default_rates hour_apart startTime endTime in
   (economiaLitros m2 == 6.30)%Q /\ (economiaRS m2 == 33.39)%Q /\
   (economiaMes m2 == 1001.70)%Q).
Proof.
  intros filtered m. subst m. rewrite computeMetrics_filtered. fold filtered.
  assert (Hh : sorted_by_t dataArr ->
               (0 <= inject_Z (qualifying 40 filtered) / 3600000)%Q).
  { intros Hs. apply hours_nonneg, qualifying_nonneg. by apply filter_sorted. }
  assert (Hex : startTime <= 0 -> 3600000 <= endTime ->
                List.filter (in_range startTime endTime) hour_apart = hour_apart).
  { intros H0 H1. unfold hour_apart. cbn [List.filter].
    by rewrite !(proj2 (in_range_spec _ _ _)) by (simpl; lia). }
  repeat split.
  - destruct filtered; cbv zeta; cbn [economiaLitros no_metrics];
      [|reflexivity].
    change (inject_Z (qualifying 40 [])) with 0%Q. field.
  - destruct filtered; cbv zeta; cbn [economiaLitros economiaRS no_metrics];
      [field | reflexivity].
  - destruct filtered; cbv zeta; cbn [economiaRS economiaMes no_metrics];
      [field | reflexivity].
  - specialize (Hh H).
    destruct filtered; cbv zeta; cbn [economiaLitros no_metrics]; [done|].
    by apply Qmult_le_0_compat.
  - specialize (Hh H).
    destruct filtered; cbv zeta; cbn [economiaRS no_metrics]; [done|].
    apply Qmult_le_0_compat; [by apply Qmult_le_0_compat | done].
  - specialize (Hh H).
    destruct filtered; cbv zeta; cbn [economiaMes no_metrics]; [done|].
    apply Qmult_le_0_compat; [|done].
    apply Qmult_le_0_compat; [by apply Qmult_le_0_compat | done].
  - rewrite computeMetrics_filtered, Hex by done. done.
  - rewrite computeMetrics_filtered, Hex by done. done.
  - rewrite computeMetrics_filtered, Hex by done. done.
Qed.

Lemma hour_apart_sorted : sorted_by_t hour_apart.
Proof.
  repeat constructor. simpl. lia.
Defined.

Lemma computeMetrics_savings_witness :
  let m := computeMetrics default_rates hour_apart (-5) 4000000 in
  ((0 <= economiaLitros m)%Q /\ (0 <= economiaRS m)%Q /\ (0 <= economiaMes m)%Q) /\
  ((economiaLitros m == 6.30)%Q /\ (economiaRS m == 33.39)%Q /\
   (economiaMes m == 1001.70)%Q).
Proof.
  pose proof (computeMetrics_savings default_rates hour_apart (-5) 4000000)
    as (_ & _ & _ & Hpos & Hex).
  split.
  - apply Hpos; [exact hour_apart_sorted | discriminate | discriminate].
  - apply Hex; lia.
Defined.

Lemma computeMetrics_savings_counterexample :
  ~ (forall cfg dataArr startTime endTime,
       sorted_by_t dataArr ->
       let m := computeMetrics cfg dataArr startTime endTime in
       (0 <= economiaLitros m)%Q /\ (0 <= economiaRS m)%Q /\ (0 <= economiaMes m)%Q).
Proof.
  intros H.
  destruct (H {| dieselPrice := -1; dieselConsumption := 6.30 |}
              hour_apart 0 3600000 hour_apart_sorted) as (_ & H2 & _).
  vm_compute in H2. by apply H2.
Qed.

(** C4 (as stated it fails: the availability text of the empty result is
    ["00:00 h"], not ["00:00"], and a window whose start lies after its
    end holds no point, not even one at its start).  The filter keeps
    exactly the points with [startTime <= t <= endTime], both bounds
    included: when [startTime <= endTime], a point at [startTime] or at
    [endTime] is kept.  For a series that is empty or has no point in the
    window the result has availability ["00:00 h"], zero litres, zero
    currency, zero projection and no last temperature.  Otherwise, for a
    series sorted by [t], the last temperature is the value of the last
    kept point, and no point in the window has a later timestamp. *)
Theorem computeMetrics_window cfg dataArr startTime endTime :
  let filtered := List.filter (in_range startTime endTime) dataArr in
  let m := computeMetrics cfg dataArr startTime endTime in
  (forall p, in_range startTime endTime p = true <-> startTime <= t p <= endTime) /\
  (startTime <= endTime ->
   forall v,
     in_range startTime endTime {| t := startTime; value := v |} = true /\
     in_range startTime endTime {| t := endTime; value := v |} = true) /\
  (forall p, In p filtered <-> In p dataArr /\ startTime <= t p <= endTime) /\
  computeMetrics cfg [] startTime endTime = no_metrics /\
  ((forall p, In p dataArr -> ~ (startTime <= t p <= endTime)) -> m = no_metrics) /\
  (availability no_metrics = "00:00 h" /\
   economiaLitros no_metrics = 0%Q /\
   economiaRS no_metrics = 0%Q /\
   economiaMes no_metrics = 0%Q /\
   lastTemperature no_metrics = None) /\
  (sorted_by_t dataArr ->
   forall p, In p dataArr -> startTime <= t p <= endTime ->
   exists front q,
     filtered = (front ++ [q])%list /\
     lastTemperature m = Some (value q) /\
     forall p', In p' dataArr -> startTime <= t p' <= endTime -> t p' <= t q).
Proof.
  intros filtered m.
  assert (Hin : forall p, In p filtered <-> In p dataArr /\ startTime <= t p <= endTime).
  { intros p. subst filtered. by rewrite filter_In, in_range_spec. }
  split; [apply in_range_spec|].
  split; [intros Hw v; split; apply in_range_spec; simpl; lia|].
  split; [done|]. split; [done|].
  split; [|split; [done|]].
  - intros Hnone. subst m. rewrite computeMetrics_filtered. fold filtered.
    destruct filtered as [|q rest]; [done|].
    destruct (proj1 (Hin q) (or_introl eq_refl)) as [Hq Hw].
    by destruct (Hnone q Hq).
  - intros Hsorted p Hp Hw.
    assert (Hne : filtered <> []).
    { intros E. apply (conj Hp) in Hw. apply Hin in Hw. rewrite E in Hw. done. }
    subst m. rewrite computeMetrics_filtered. fold filtered.
    destruct filtered as [|q0 rest] eqn:E; [done|].
    exists (removelast (q0 :: rest)), (List.last (q0 :: rest) q0).
    pose proof (app_removelast_last q0 Hne) as Hsplit.
    split; [done|]. split; [done|].
    intros p' Hp' Hw'. apply (conj Hp') in Hw'. apply Hin in Hw'.
    rewrite Hsplit in Hw'. apply in_app_or in Hw' as [Hf|[->|[]]]; [|lia].
    apply (sorted_snoc (removelast (q0 :: rest))); [|done].
    rewrite <- Hsplit, <- E. by apply filter_sorted.
Qed.

Lemma computeMetrics_window_witness :
  let m := computeMetrics default_rates hour_apart 0 3600000 in
  (in_range 0 3600000 {| t := 0; value := 60 |} = true /\
   in_range 0 3600000 {| t := 3600000; value := 60 |} = true) /\
  computeMetrics default_rates hour_apart 5 7 = no_metrics /\
  exists front q,
    List.filter (in_range 0 3600000) hour_apart = (front ++ [q])%list /\
    lastTemperature m = Some (value q) /\
    forall p', In p' hour_apart -> 0 <= t p' <= 3600000 -> t p' <= t q.
Proof.
  split; [|split].
  - apply (computeMetrics_window default_rates hour_apart 0 3600000). lia.
  - apply (computeMetrics_window default_rates hour_apart 5 7).
    intros p [<-|[<-|[]]]; simpl; lia.
  - apply (proj2 (proj2 (proj2 (proj2 (proj2 (proj2
             (computeMetrics_window default_rates hour_apart 0 3600000))))))
             hour_apart_sorted {| t := 0; value := 60 |}).
    + by left.
    + simpl. lia.
Defined.

Lemma computeMetrics_window_counterexample :
  ~ (forall cfg startTime endTime,
       availability (computeMetrics cfg [] startTime endTime) = "00:00") /\
  ~ (forall startTime endTime v,
       in_range startTime endTime {| t := startTime; value := v |} = true).
Proof.
  split.
  - intros H. specialize (H default_rates 0 0). discriminate.
  - intros H. specialize (H 10 5 60%Q). discriminate.
Qed.

(** ** The sort *)

Lemma insert_by_t_perm p l : Permutation (p :: l) (insert_by_t p l).
Proof.
  induction l as [|q l IH]; simpl; [done|].
  destruct (t p <=? t q); [done|].
  rewrite perm_swap. by constructor.
Qed.

Lemma sort_by_t_perm l : Permutation l (sort_by_t l).
Proof.
  induction l as [|p l IH]; simpl; [done|].
  rewrite <- insert_by_t_perm. by constructor.
Qed.

Lemma insert_by_t_sorted p l : sorted_by_t l -> sorted_by_t (insert_by_t p l).
Proof.
  induction 1 as [|q l Hs IH Hq]; simpl.
  - repeat constructor.
  - destruct (t p <=? t q) eqn:E; zbool.
    + constructor; [by constructor|]. constructor; [done|].
      eapply Forall_impl; [exact Hq|]. simpl. intros; lia.
    + constructor; [done|].
      eapply Permutation_Forall; [apply insert_by_t_perm|].
      constructor; [lia | done].
Qed.

Lemma sort_by_t_sorted l : sorted_by_t (sort_by_t l).
Proof.
  induction l as [|p l IH]; simpl; [constructor|]. by apply insert_by_t_sorted.
Qed.

Lemma insert_by_t_stable ts p l :
  List.filter (at_time ts) (insert_by_t p l) = List.filter (at_time ts) (p :: l).
Proof.
  induction l as [|q l IH]; simpl; [done|].
  destruct (t p <=? t q) eqn:E; [done|]. zbool.
  simpl. rewrite IH. simpl. unfold at_time.
  destruct (t p =? ts) eqn:Ep, (t q =? ts) eqn:Eq; try done.
  apply Z.eqb_eq in Ep, Eq. lia.
Qed.

Lemma sort_by_t_stable ts l :
  List.filter (at_time ts) (sort_by_t l) = List.filter (at_time ts) l.
Proof.
  induction l as [|p l IH]; simpl; [done|].
  rewrite insert_by_t_stable. simpl. by rewrite IH.
Qed.

Lemma at_time_self p : at_time (t p) p = true.
Proof. apply Z.eqb_refl. Qed.

(** A sorted sequence is determined by the order it gives to the points
    of each timestamp: whatever stable sort the host uses, its result is
    [sort_by_t]. *)
Lemma stable_sorted_unique l1 : forall l2,
  sorted_by_t l1 -> sorted_by_t l2 ->
  (forall ts, List.filter (at_time ts) l1 = List.filter (at_time ts) l2) ->
  l1 = l2.
Proof.
  assert (Hhead : forall x l y l',
    sorted_by_t (x :: l) ->
    List.filter (at_time (t y)) (x :: l) = List.filter (at_time (t y)) (y :: l') ->
    t x <= t y).
  { intros x l y l' [_ Hx]%StronglySorted_inv Hf.
    assert (Hy : In y (List.filter (at_time (t y)) (x :: l))).
    { rewrite Hf. cbn [List.filter]. rewrite at_time_self. by left. }
    apply filter_In in Hy as [[->|Hy] _]; [lia|].
    by apply (proj1 (List.Forall_forall _ _) Hx). }
  induction l1 as [|x l1 IH]; intros [|y l2] H1 H2 Hf.
  - done.
  - specialize (Hf (t y)). cbn [List.filter] in Hf.
    by rewrite at_time_self in Hf.
  - specialize (Hf (t x)). cbn [List.filter] in Hf.
    by rewrite at_time_self in Hf.
  - assert (Hxy : t x = t y).
    { apply Z.le_antisymm.
      - eapply Hhead; [exact H1 | apply Hf].
      - eapply Hhead; [exact H2 | symmetry; apply Hf]. }
    assert (x = y) as ->.
    { specialize (Hf (t x)). cbn [List.filter] in Hf.
      rewrite at_time_self in Hf. rewrite Hxy, at_time_self in Hf. congruence. }
    f_equal. apply IH.
    + by apply StronglySorted_inv in H1 as [? _].
    + by apply StronglySorted_inv in H2 as [? _].
    + intros ts. specialize (Hf ts). cbn [List.filter] in Hf.
      destruct (at_time ts y); congruence.
Qed.

(** ** buildDataStructure *)

Lemma for_motor_app motorId l1 l2 :
  for_motor motorId (l1 ++ l2) = (for_motor motorId l1 ++ for_motor motorId l2)%list.
Proof. unfold for_motor. by rewrite List.filter_app, map_app. Qed.

Lemma series_of_push md motorId p motorId' :
  series_of (push md motorId p) motorId'
  = if Z.eqb motorId motorId' then (series_of md motorId ++ [p])%list
    else series_of md motorId'.
Proof.
  unfold series_of, push. destruct (Z.eqb_spec motorId motorId') as [->|Hne].
  - by rewrite lookup_insert_eq.
  - by rewrite lookup_insert_ne.
Qed.

Lemma fold_tables {S R} (f : S -> R -> S) (tables : list (list R)) : forall st,
  fold_left (fun st table => fold_left f table st) tables st
  = fold_left f (concat tables) st.
Proof.
  induction tables as [|table tables IH]; intros st; simpl; [done|].
  by rewrite fold_left_app, IH.
Qed.

Section Build.

Variable Date_getTime : string -> option Z.
Variable parseFloat : string -> option Q.

Lemma process_column_sample ts md c :
  process_column parseFloat ts md c
  = match column_sample parseFloat ts c with
    | Some (motorId, p) => push md motorId p
    | None => md
    end.
Proof.
  destruct c as [col cell]. unfold process_column, column_sample.
  destruct (is_datetime_column col); [done|].
  destruct (Js.is_empty cell); [done|].
  destruct (parseFloat _); [|done].
  by destruct (motor_of_column col).
Qed.

Lemma columns_fold ts cols : forall md motorId,
  series_of (fold_left (process_column parseFloat ts) cols md) motorId
  = (series_of md motorId
     ++ for_motor motorId (omap (column_sample parseFloat ts) cols))%list.
Proof.
  induction cols as [|c cols IH]; intros md motorId; simpl.
  - by rewrite app_nil_r.
  - rewrite IH, process_column_sample.
    destruct (column_sample parseFloat ts c) as [[motorId' p]|]; [|done].
    rewrite series_of_push. unfold for_motor. simpl.
    destruct (motorId' =? motorId) eqn:E; [|done].
    apply Z.eqb_eq in E as ->. simpl. by rewrite <- app_assoc.
Qed.

Lemma process_row_series st r motorId :
  series_of (motorData (process_row Date_getTime parseFloat st r)) motorId
  = (series_of (motorData st) motorId
     ++ for_motor motorId (row_samples Date_getTime parseFloat r))%list.
Proof.
  unfold process_row, row_samples.
  destruct (row_timestamp Date_getTime r) as [ts|]; simpl.
  - apply columns_fold.
  - by rewrite app_nil_r.
Qed.

Lemma rows_fold rows : forall st motorId,
  series_of (motorData (fold_left (process_row Date_getTime parseFloat) rows st))
    motorId
  = (series_of (motorData st) motorId
     ++ for_motor motorId
          (concat (map (row_samples Date_getTime parseFloat) rows)))%list.
Proof.
  induction rows as [|r rows IH]; intros st motorId; simpl.
  - by rewrite app_nil_r.
  - by rewrite IH, process_row_series, for_motor_app, app_assoc.
Qed.

Lemma collect_series tables motorId :
  series_of (motorData (collect Date_getTime parseFloat tables)) motorId
  = pushed Date_getTime parseFloat tables motorId.
Proof. unfold collect. rewrite fold_tables, rows_fold. done. Qed.

Lemma buildDataStructure_lookup tables motorId series :
  motorData (buildDataStructure Date_getTime parseFloat tables) !! motorId
  = Some series ->
  series = sort_by_t (pushed Date_getTime parseFloat tables motorId).
Proof.
  unfold buildDataStructure. simpl. rewrite lookup_fmap.
  intros H. rewrite <- collect_series. unfold series_of.
  destruct (motorData (collect Date_getTime parseFloat tables) !! motorId);
    simpl in *; congruence.
Qed.

(** C8. Every series of the map [buildDataStructure] returns is sorted
    non-decreasingly by [t]; it holds the points pushed for its motor, and
    the points of one timestamp keep the order in which they were pushed
    (tables in the order supplied, rows in table order, columns in row
    order).  What [computeMetrics] later reads from a series, the points
    within a window, is a sub-sequence of it in the same order, so it
    stays sorted. *)
Theorem buildDataStructure_sorted tables motorId series :
  motorData (buildDataStructure Date_getTime parseFloat tables) !! motorId
  = Some series ->
  sorted_by_t series /\
  Permutation (pushed Date_getTime parseFloat tables motorId) series /\
  (forall ts,
     List.filter (at_time ts) series
     = List.filter (at_time ts) (pushed Date_getTime parseFloat tables motorId)) /\
  (forall startTime endTime,
     sublist (List.filter (in_range startTime endTime) series) series /\
     sorted_by_t (List.filter (in_range startTime endTime) series)).
Proof.
  intros ->%buildDataStructure_lookup. split; [|split; [|split]].
  - apply sort_by_t_sorted.
  - apply sort_by_t_perm.
  - intros ts. apply sort_by_t_stable.
  - intros startTime endTime. split; [apply filter_sublist|].
    apply filter_sorted, sort_by_t_sorted.
Qed.

End Build.

(** ** The column patterns *)

Lemma append_assoc a b c : (a +:+ b) +:+ c = a +:+ (b +:+ c).
Proof.
  induction a as [|x a IH]; [done|].
  change (String x ((a +:+ b) +:+ c) = String x (a +:+ (b +:+ c))).
  by f_equal.
Qed.

Lemma prefix_ci_occurs w : forall s,
  Js.prefix_ci w s = true <->
  exists mid suf, s = mid +:+ suf /\ lower_string mid = lower_string w.
Proof.
  induction w as [|a w IH]; intros s; simpl.
  - split; [|done]. intros _. by exists "", s.
  - destruct s as [|b s].
    + split; [done|]. intros (mid & suf & Hs & Hl).
      destruct mid; simpl in *; discriminate.
    + rewrite andb_true_iff, IH. split.
      * intros [Hab (mid & suf & -> & Hl)]. exists (String b mid), suf.
        apply Ascii.eqb_eq in Hab. simpl. by rewrite Hl, Hab.
      * intros (mid & suf & Hs & Hl). destruct mid as [|b' mid]; [done|].
        simpl in Hs, Hl. injection Hs as -> ->. injection Hl as Hb Hl.
        split; [apply Ascii.eqb_eq; congruence|]. by exists mid, suf.
Qed.

Lemma search_found {A} (here : string -> option A) s :
  is_Some (search here s) <->
  exists pre suf, s = pre +:+ suf /\ is_Some (here suf).
Proof.
  split.
  - induction s as [|c r IH]; simpl.
    + destruct (here "") eqn:E; [|by intros []].
      intros _. exists "", "". by rewrite E.
    + destruct (here (String c r)) eqn:E.
      * intros _. exists "", (String c r). by rewrite E.
      * intros (pre & suf & -> & Hs)%IH. by exists (String c pre), suf.
  - intros (pre & suf & -> & Hs). induction pre as [|c pre IH]; simpl.
    + destruct suf; simpl; destruct Hs as [x ->]; done.
    + by destruct (here (String c (pre +:+ suf))).
Qed.

Lemma word_here_words s :
  word_here s = true <->
  exists w, In w datetime_words /\ Js.prefix_ci w s = true.
Proof.
  unfold word_here, datetime_words. rewrite !orb_true_iff. split.
  - intros [[[H|H]|H]|H]; eexists; (split; [|exact H]); simpl; tauto.
  - intros (w & Hw & H). simpl in Hw.
    destruct Hw as [<-|[<-|[<-|[<-|[]]]]]; tauto.
Qed.

Lemma datetime_column_words col :
  is_datetime_column col = true <->
  exists w, In w datetime_words /\ contains_ci w col.
Proof.
  unfold is_datetime_column, contains_ci. split.
  - intros H.
    assert (Hs : is_Some (search datetime_here col))
      by (destruct (search datetime_here col); [by eexists | done]).
    apply search_found in Hs as (pre & suf & -> & Hh).
    unfold datetime_here in Hh.
    destruct (word_here suf) eqn:Ew.
    + apply word_here_words in Ew as (w & Hw & (mid & rest & -> & Hl)%prefix_ci_occurs).
      by exists w; split; [|exists pre, mid, rest].
    + rewrite orb_false_r in Hh.
      destruct suf as [|c r]; [by destruct Hh|].
      destruct (Ascii.eqb_spec c "$") as [->|Hc]; cycle 1.
      { destruct c as [[] [] [] [] [] [] [] []]; by destruct Hh. }
      destruct (word_here r) eqn:Er; [|by destruct Hh].
      apply word_here_words in Er as (w & Hw & (mid & rest & -> & Hl)%prefix_ci_occurs).
      exists w; split; [done|]. exists (pre +:+ "$"), mid, rest.
      split; [|done]. by rewrite append_assoc.
  - intros (w & Hw & pre & mid & suf & -> & Hl).
    assert (Hs : is_Some (search datetime_here (pre +:+ mid +:+ suf))).
    { apply search_found. exists pre, (mid +:+ suf). split; [done|].
      unfold datetime_here.
      assert (word_here (mid +:+ suf) = true) as ->.
      { apply word_here_words. exists w. split; [done|].
        apply prefix_ci_occurs. by exists mid, suf. }
      rewrite orb_true_r. by eexists. }
    by destruct Hs as [x ->].
Qed.

Section Columns.

Variable Date_getTime : string -> option Z.
Variable parseFloat : string -> option Q.

Lemma column_sample_some ts col cell motorId p :
  column_sample parseFloat ts (col, cell) = Some (motorId, p) ->
  is_datetime_column col = false /\
  parseFloat (Js.replace_comma cell) = Some (value p) /\
  motor_of_column col = Some motorId /\ t p = ts.
Proof.
  unfold column_sample. destruct (is_datetime_column col); [done|].
  destruct (Js.is_empty cell); [done|].
  destruct (parseFloat _) as [v|]; [|done].
  destruct (motor_of_column col) as [m|]; [|done].
  by intros [= <- <-].
Qed.

Lemma pushed_origin tables motorId p :
  In p (pushed Date_getTime parseFloat tables motorId) ->
  exists table r c ts,
    In table tables /\ In r table /\ In c r /\
    row_timestamp Date_getTime r = Some ts /\
    column_sample parseFloat ts c = Some (motorId, p).
Proof.
  unfold pushed, for_motor, accepted.
  intros ([m q] & Hq & [Hs Hm]%filter_In)%in_map_iff.
  simpl in Hq, Hm. subst q. apply Z.eqb_eq in Hm as ->.
  apply in_concat in Hs as (l & (r & <- & Hr)%in_map_iff & Hs).
  apply in_concat in Hr as (table & Htable & Hr).
  unfold row_samples in Hs.
  destruct (row_timestamp Date_getTime r) as [ts|] eqn:Ets; [|done].
  apply list_elem_of_In, list_elem_of_omap in Hs as (c & Hc%list_elem_of_In & Hsample).
  by exists table, r, c, ts.
Qed.

(** C9. A column whose name contains one of [Date], [Time], [Data],
    [Hora] at any position, in any letter case, is a date-time column for
    the program, and such a column never yields a point: the loop body
    leaves the map as it is, and every point of every series
    [buildDataStructure] returns comes from a column without any of the
    four words.  This holds when the name has a motor marker and the cell
    is a number too: the column [SCA07_Data], which names motor 7, is
    dropped whatever its cell. *)
Theorem datetime_columns_dropped :
  (forall col,
     is_datetime_column col = true <->
     exists w, In w datetime_words /\ contains_ci w col) /\
  (forall ts md col cell,
     is_datetime_column col = true ->
     process_column parseFloat ts md (col, cell) = md) /\
  (forall tables motorId series p,
     motorData (buildDataStructure Date_getTime parseFloat tables) !! motorId
     = Some series ->
     In p series ->
     exists table r col cell,
       In table tables /\ In r table /\ In (col, cell) r /\
       row_timestamp Date_getTime r = Some (t p) /\
       (forall w, In w datetime_words -> ~ contains_ci w col) /\
       parseFloat (Js.replace_comma cell) = Some (value p) /\
       motor_of_column col = Some motorId) /\
  (forall ts md cell,
     motor_of_column "SCA07_Data" = Some 7 /\
     process_column parseFloat ts md ("SCA07_Data", cell) = md).
Proof.
  split; [apply datetime_column_words|].
  assert (Hdrop : forall ts md col cell,
     is_datetime_column col = true ->
     process_column parseFloat ts md (col, cell) = md).
  { intros ts md col cell H. unfold process_column. by rewrite H. }
  split; [exact Hdrop|]. split.
  - intros tables motorId series p ->%buildDataStructure_lookup Hp.
    apply (Permutation_in _ (Permutation_sym (sort_by_t_perm _))) in Hp.
    apply pushed_origin in Hp as (table & r & [col cell] & ts & ? & ? & ? & ? & Hc).
    apply column_sample_some in Hc as (Hd & ? & ? & <-).
    exists table, r, col, cell. repeat split; try done.
    intros w Hw Hcontains.
    assert (is_datetime_column col = true)
      by (apply datetime_column_words; by exists w).
    congruence.
  - intros ts md cell. split; [done|]. by apply Hdrop.
Qed.

End Columns.

Lemma buildDataStructure_sorted_witness :
  let series :=
    [ {| t := 1710493200000; value := 45.5 |};
      {| t := 1710493200000; value := 61 |};
      {| t := 1710496800000; value := 55.5 |} ] in
  sorted_by_t series /\
  Permutation (pushed Host.Date_utc Host.parseFloat example_tables 7) series.
Proof.
  intros series.
  destruct (buildDataStructure_sorted Host.Date_utc Host.parseFloat
              example_tables 7 series eq_refl) as (Hs & Hp & _).
  exact (conj Hs Hp).
Defined.

Lemma datetime_columns_dropped_witness :
  process_column Host.parseFloat 0 ∅ ("SCA07_Data", "60") = ∅ /\
  exists table r col cell,
    In table example_tables /\ In r table /\ In (col, cell) r /\
    row_timestamp Host.Date_utc r = Some 1710496800000 /\
    (forall w, In w datetime_words -> ~ contains_ci w col) /\
    Host.parseFloat (Js.replace_comma cell) = Some 55.5%Q /\
    motor_of_column col = Some 7.
Proof.
  destruct (datetime_columns_dropped Host.Date_utc Host.parseFloat)
    as (_ & Hdrop & Horigin & _).
  split.
  - exact (Hdrop 0 ∅ "SCA07_Data" "60" eq_refl).
  - exact (Horigin example_tables 7
             [ {| t := 1710493200000; value := 45.5 |};
               {| t := 1710493200000; value := 61 |};
               {| t := 1710496800000; value := 55.5 |} ]
             {| t := 1710496800000; value := 55.5 |}
             eq_refl (or_intror (or_intror (or_introl eq_refl)))).
Defined.

(** ** updateSummaryPanel *)

Lemma motor_ids_range motorId : In motorId motor_ids <-> 1 <= motorId <= 23.
Proof.
  unfold motor_ids. rewrite in_map_iff. split.
  - intros (n & <- & Hn%in_seq). lia.
  - intros H. exists (Z.to_nat motorId). split; [lia|]. apply in_seq. lia.
Qed.

Lemma motor_ids_NoDup : List.NoDup motor_ids.
Proof.
  unfold motor_ids. apply Finite.Injective_map_NoDup; [|apply seq_NoDup].
  intros a b. lia.
Qed.

Lemma has_data_spec md motorId :
  has_data md motorId = true <-> exists p l, md !! motorId = Some (p :: l).
Proof.
  unfold has_data. destruct (md !! motorId) as [[|p l]|].
  - split; [done|]. by intros (? & ? & ?).
  - split; [|done]. intros _. by exists p, l.
  - split; [done|]. by intros (? & ? & ?).
Qed.

Lemma is_heating_spec (heatingData : gmap Z bool) motorId :
  is_heating heatingData motorId = true <-> heatingData !! motorId = Some true.
Proof.
  unfold is_heating. destruct (heatingData !! motorId) as [[]|]; simpl; split;
    congruence.
Qed.

Lemma sum_pairs {A} (f g : A -> Q) l : forall a b,
  let r :=
    fold_left (fun totals i => ((fst totals + f i)%Q, (snd totals + g i)%Q))
      l (a, b) in
  (fst r == a + sumQ (map f l))%Q /\ (snd r == b + sumQ (map g l))%Q.
Proof.
  induction l as [|i l IH]; intros a b.
  - cbn. split; ring.
  - cbn [fold_left map sumQ foldr fst snd].
    destruct (IH (a + f i)%Q (b + g i)%Q) as [H1 H2]. cbv zeta in H1, H2.
    rewrite H1, H2. fold (sumQ (map f l)). fold (sumQ (map g l)). split; ring.
Qed.

Lemma sum_guarded {A} (c : A -> bool) (h : A -> Q) l : forall a,
  (fold_left (fun total i => if c i then (total + h i)%Q else total) l a
   == a + sumQ (map h (List.filter c l)))%Q.
Proof.
  induction l as [|i l IH]; intros a.
  - cbn. ring.
  - cbn [fold_left List.filter]. rewrite IH.
    destruct (c i); [|reflexivity].
    cbn [map sumQ foldr]. fold (sumQ (map h (List.filter c l))). ring.
Qed.

Lemma heating_totals cfg (md : gmap Z (list point)) startTime endTime l :
  let totals :=
    fold_left
      (fun totals motorId =>
         let m := computeMetrics cfg (default [] (md !! motorId)) startTime endTime in
         ((fst totals + economiaLitros m)%Q, (snd totals + economiaRS m)%Q))
      l (0%Q, 0%Q) in
  let metrics_of i := computeMetrics cfg (series_of md i) startTime endTime in
  (fst totals == sumQ (map (fun i => economiaLitros (metrics_of i)) l))%Q /\
  (snd totals == sumQ (map (fun i => economiaRS (metrics_of i)) l))%Q.
Proof.
  intros totals metrics_of.
  destruct (sum_pairs (fun i => economiaLitros (metrics_of i))
              (fun i => economiaRS (metrics_of i)) l 0%Q 0%Q) as [H1 H2].
  split.
  - etransitivity; [exact H1 | apply Qplus_0_l].
  - etransitivity; [exact H2 | apply Qplus_0_l].
Qed.

Lemma monthly_total cfg (md : gmap Z (list point)) startTime endTime l :
  (fold_left
     (fun total motorId =>
        if has_data md motorId then
          let m := computeMetrics cfg (default [] (md !! motorId)) startTime endTime in
          (total + economiaMes m)%Q
        else total)
     l 0%Q
   == sumQ (map (fun i => economiaMes
                   (computeMetrics cfg (series_of md i) startTime endTime))
              (List.filter (has_data md) l)))%Q.
Proof.
  etransitivity;
    [exact (sum_guarded (has_data md)
              (fun i => economiaMes
                 (computeMetrics cfg (series_of md i) startTime endTime)) l 0%Q)
    | apply Qplus_0_l].
Qed.

Lemma updateSummaryPanel_fields cfg md heatingData startTime endTime :
  let listed :=
    List.filter (fun motorId => is_heating heatingData motorId && has_data md motorId)
      motor_ids in
  let totals :=
    fold_left
      (fun totals motorId =>
         let m := computeMetrics cfg (default [] (md !! motorId)) startTime endTime in
         ((fst totals + economiaLitros m)%Q, (snd totals + economiaRS m)%Q))
      listed (0%Q, 0%Q) in
  updateSummaryPanel cfg md heatingData startTime endTime
  = {| heatingMotors := listed;
       totalLitrosHeating := fst totals;
       totalRSHeating := snd totals;
       totalMonthlyProjection :=
         fold_left
           (fun total motorId =>
              if has_data md motorId then
                let m := computeMetrics cfg (default [] (md !! motorId))
                           startTime endTime in
                (total + economiaMes m)%Q
              else total)
           motor_ids 0%Q |}.
Proof. reflexivity. Qed.

Lemma heatingMotors_eq cfg md heatingData startTime endTime :
  heatingMotors (updateSummaryPanel cfg md heatingData startTime endTime)
  = List.filter (fun motorId => is_heating heatingData motorId && has_data md motorId)
      motor_ids.
Proof. reflexivity. Qed.

(** C5 (as stated it fails: motor 24 is never listed).  The list of
    heating motors holds exactly the motor numbers from 1 to 23 whose
    heating flag is set and whose series has at least one sample; the
    window plays no part, and a flagged motor without samples is left
    out. *)
Theorem heatingMotors_listed cfg md (heatingData : gmap Z bool) startTime endTime :
  let s := updateSummaryPanel cfg md heatingData startTime endTime in
  (forall motorId,
     In motorId (heatingMotors s) <->
     1 <= motorId <= 23 /\ heatingData !! motorId = Some true /\
     exists p l, md !! motorId = Some (p :: l)) /\
  List.NoDup (heatingMotors s) /\
  (forall startTime' endTime',
     heatingMotors (updateSummaryPanel cfg md heatingData startTime' endTime')
     = heatingMotors s).
Proof.
  intros s. subst s. rewrite heatingMotors_eq. split; [|split].
  - intros motorId.
    by rewrite filter_In, andb_true_iff, motor_ids_range, is_heating_spec,
      has_data_spec.
  - apply List.NoDup_filter, motor_ids_NoDup.
  - intros. by rewrite heatingMotors_eq.
Qed.

Lemma heatingMotors_listed_counterexample :
  ~ (forall cfg md (heatingData : gmap Z bool) startTime endTime motorId,
       In motorId
         (heatingMotors (updateSummaryPanel cfg md heatingData startTime endTime)) <->
       0 < motorId /\ heatingData !! motorId = Some true /\
       exists p l, md !! motorId = Some (p :: l)).
Proof.
  intros H.
  destruct (H default_rates {[ 24 := hour_apart ]} {[ 24 := true ]} 0 3600000 24)
    as [_ H2].
  assert (Hin : In 24 (heatingMotors (updateSummaryPanel default_rates
                  {[ 24 := hour_apart ]} {[ 24 := true ]} 0 3600000))).
  { apply H2. split; [lia|]. split; [done|]. by eexists _, _. }
  vm_compute in Hin. done.
Qed.

(** C6 (as stated it fails: a motor numbered above 23 adds nothing to the
    monthly total).  The litres and currency totals are the sums of the
    corresponding [computeMetrics] fields over exactly the listed heating
    motors; the monthly total is the sum of the monthly projection over
    every motor from 1 to 23 that has at least one sample, whatever its
    heating flag; so such a motor with data and no heating flag counts in
    the monthly total and not in the two others. *)
Theorem summary_totals cfg md (heatingData : gmap Z bool) startTime endTime :
  let s := updateSummaryPanel cfg md heatingData startTime endTime in
  let metrics_of motorId := computeMetrics cfg (series_of md motorId) startTime endTime in
  let with_data := List.filter (has_data md) motor_ids in
  (totalLitrosHeating s
   == sumQ (map (fun i => economiaLitros (metrics_of i)) (heatingMotors s)))%Q /\
  (totalRSHeating s
   == sumQ (map (fun i => economiaRS (metrics_of i)) (heatingMotors s)))%Q /\
  (totalMonthlyProjection s
   == sumQ (map (fun i => economiaMes (metrics_of i)) with_data))%Q /\
  (forall motorId,
     In motorId with_data <->
     1 <= motorId <= 23 /\ exists p l, md !! motorId = Some (p :: l)) /\
  (forall motorId,
     1 <= motorId <= 23 -> has_data md motorId = true ->
     is_heating heatingData motorId = false ->
     In motorId with_data /\ ~ In motorId (heatingMotors s)).
Proof.
  intros s metrics_of with_data. subst s metrics_of with_data.
  rewrite updateSummaryPanel_fields. cbv zeta.
  cbn [heatingMotors totalLitrosHeating totalRSHeating totalMonthlyProjection].
  split; [|split; [|split; [|split]]].
  - set (l := List.filter _ motor_ids). clearbody l.
    exact (proj1 (heating_totals cfg md startTime endTime l)).
  - set (l := List.filter _ motor_ids). clearbody l.
    exact (proj2 (heating_totals cfg md startTime endTime l)).
  - set (ids := motor_ids). clearbody ids.
    exact (monthly_total cfg md startTime endTime ids).
  - intros motorId. by rewrite filter_In, motor_ids_range, has_data_spec.
  - intros motorId Hr Hd Hf. split.
    + apply filter_In. split; [by apply motor_ids_range | done].
    + rewrite filter_In, Hf. simpl. by intros [_ ?].
Qed.

Lemma summary_totals_witness :
  let md : gmap Z (list point) := {[ 3 := hour_apart ]} in
  let s := updateSummaryPanel default_rates md ∅ 0 3600000 in
  In 3 (List.filter (has_data md) motor_ids) /\ ~ In 3 (heatingMotors s).
Proof.
  intros md s.
  exact (proj2 (proj2 (proj2 (proj2
           (summary_totals default_rates md ∅ 0 3600000)))) 3
           ltac:(lia) eq_refl eq_refl).
Defined.

Lemma summary_totals_counterexample :
  ~ (forall cfg md (heatingData : gmap Z bool) startTime endTime,
       (totalMonthlyProjection
          (updateSummaryPanel cfg md heatingData startTime endTime)
        == monthly_of_all cfg md startTime endTime)%Q).
Proof.
  intros H.
  specialize (H default_rates {[ 24 := hour_apart ]} ∅ 0 3600000).
  vm_compute in H. discriminate.
Qed.

(** ** More on parseTimestamp *)

Lemma parseTimestamp_parts (Date_getTime : string -> option Z)
    dateStr timeStr a b c rest :
  Js.split date_sep dateStr = a :: b :: c :: rest ->
  timeStr <> "" ->
  parseTimestamp Date_getTime dateStr timeStr
  = match Js.parseInt a, Js.parseInt b, Js.parseInt c with
    | Some p1, Some p2, Some p3 =>
        Date_getTime (iso (assign_fields p1 p2 p3) timeStr)
    | _, _, _ => None
    end.
Proof.
  intros Hs Ht. unfold parseTimestamp.
  rewrite (split_three_nonempty _ _ _ _ _ Hs).
  destruct timeStr; [done|]. simpl Js.is_empty. simpl orb. cbv iota.
  by rewrite Hs.
Qed.

Lemma split_map_chars f s :
  (forall c, if date_sep c then date_sep (f c) = true else f c = c) ->
  Js.split date_sep (map_chars f s) = Js.split date_sep s.
Proof.
  intros Hf. induction s as [|c r IH]; simpl; [done|].
  specialize (Hf c). destruct (date_sep c) eqn:Ec.
  - by rewrite Hf, IH.
  - by rewrite Hf, Ec, IH.
Qed.

(** X1. The two separators are interchangeable: rewriting the separators
    of a date text into one another, and nothing else, does not change
    what [parseTimestamp] returns. *)
Theorem parseTimestamp_separators (Date_getTime : string -> option Z)
    f dateStr timeStr :
  (forall c, if date_sep c then date_sep (f c) = true else f c = c) ->
  parseTimestamp Date_getTime (map_chars f dateStr) timeStr
  = parseTimestamp Date_getTime dateStr timeStr.
Proof.
  intros Hf. unfold parseTimestamp. rewrite (split_map_chars f dateStr Hf).
  by destruct dateStr.
Qed.

Lemma parseTimestamp_separators_witness :
  parseTimestamp Host.Date_utc "15-03/2024" "10:00"
  = parseTimestamp Host.Date_utc "15/03-2024" "10:00".
Proof.
  apply (parseTimestamp_separators Host.Date_utc swap_sep "15/03-2024" "10:00").
  intros c. destruct c as [[] [] [] [] [] [] [] []]; reflexivity.
Defined.

(** X2. When exactly one of the first two numbers exceeds 12, the order in
    which day and month are written does not matter: a date text and the
    one with its first two parts exchanged resolve alike. *)
Theorem parseTimestamp_layouts_agree (Date_getTime : string -> option Z)
    dateStr dateStr' timeStr a b c rest rest' p1 p2 :
  Js.split date_sep dateStr = a :: b :: c :: rest ->
  Js.split date_sep dateStr' = b :: a :: c :: rest' ->
  Js.parseInt a = Some p1 ->
  Js.parseInt b = Some p2 ->
  (p1 > 12 /\ p2 <= 12) \/ (p2 > 12 /\ p1 <= 12) ->
  parseTimestamp Date_getTime dateStr timeStr
  = parseTimestamp Date_getTime dateStr' timeStr.
Proof.
  intros Hs Hs' Ha Hb Hone. destruct (decide (timeStr = "")) as [->|Ht].
  { unfold parseTimestamp. by rewrite !orb_true_r. }
  rewrite (parseTimestamp_parts _ _ _ _ _ _ _ Hs Ht),
    (parseTimestamp_parts _ _ _ _ _ _ _ Hs' Ht), Ha, Hb.
  destruct (Js.parseInt c) as [p3|]; [|done]. f_equal. f_equal.
  unfold assign_fields.
  destruct (p2 >? 12) eqn:E1, (p1 <=? 12) eqn:E2, (p1 >? 12) eqn:E3,
    (p2 <=? 12) eqn:E4; simpl; try done; zbool; lia.
Qed.

Lemma parseTimestamp_layouts_agree_witness :
  parseTimestamp Host.Date_utc "15/03/24" "10:00"
  = parseTimestamp Host.Date_utc "03/15/24" "10:00".
Proof.
  apply (parseTimestamp_layouts_agree Host.Date_utc "15/03/24" "03/15/24" "10:00"
           "15" "03" "24" [] [] 15 3); try reflexivity.
  left. lia.
Defined.

(** X3. A year below 100 stands for the year 2000 later: a date text whose
    third number is [y], with [0 <= y < 100], resolves like the one whose
    third number is [y + 2000]. *)
Theorem parseTimestamp_short_year (Date_getTime : string -> option Z)
    dateStr dateStr' timeStr a b c c' rest rest' y :
  Js.split date_sep dateStr = a :: b :: c :: rest ->
  Js.split date_sep dateStr' = a :: b :: c' :: rest' ->
  Js.parseInt c = Some y ->
  Js.parseInt c' = Some (y + 2000) ->
  0 <= y < 100 ->
  parseTimestamp Date_getTime dateStr timeStr
  = parseTimestamp Date_getTime dateStr' timeStr.
Proof.
  intros Hs Hs' Hc Hc' Hy. destruct (decide (timeStr = "")) as [->|Ht].
  { unfold parseTimestamp. by rewrite !orb_true_r. }
  rewrite (parseTimestamp_parts _ _ _ _ _ _ _ Hs Ht),
    (parseTimestamp_parts _ _ _ _ _ _ _ Hs' Ht), Hc, Hc'.
  destruct (Js.parseInt a) as [p1|]; [|done].
  destruct (Js.parseInt b) as [p2|]; [|done]. f_equal. f_equal.
  unfold assign_fields.
  destruct ((p2 >? 12) && (p1 <=? 12)), ((p1 >? 12) && (p2 <=? 12)); simpl;
    destruct (y <? 100) eqn:E1, (y + 2000 <? 100) eqn:E2; zbool;
    try lia; done.
Qed.

Lemma parseTimestamp_short_year_witness :
  parseTimestamp Host.Date_utc "03/15/24" "10:00"
  = parseTimestamp Host.Date_utc "03/15/2024" "10:00".
Proof.
  apply (parseTimestamp_short_year Host.Date_utc "03/15/24" "03/15/2024" "10:00"
           "03" "15" "24" "2024" [] [] 24); try reflexivity.
  lia.
Defined.

(** X4. Of a time text that is not empty only the trimmed text counts: two
    time texts that differ in surrounding white space give the same
    result. *)
Theorem parseTimestamp_time_trimmed (Date_getTime : string -> option Z)
    dateStr timeStr timeStr' :
  timeStr <> "" -> timeStr' <> "" ->
  Js.trim timeStr = Js.trim timeStr' ->
  parseTimestamp Date_getTime dateStr timeStr
  = parseTimestamp Date_getTime dateStr timeStr'.
Proof.
  intros Ht Ht' Htrim. unfold parseTimestamp, iso. rewrite Htrim.
  by destruct timeStr, timeStr'.
Qed.

Lemma parseTimestamp_time_trimmed_witness :
  parseTimestamp Host.Date_utc "03/15/24" "  10:00 "
  = parseTimestamp Host.Date_utc "03/15/24" "10:00".
Proof.
  apply (parseTimestamp_time_trimmed Host.Date_utc "03/15/24" "  10:00 " "10:00");
    [discriminate | discriminate | reflexivity].
Defined.

(** ** More on buildDataStructure *)

Lemma sum_list_perm (l l' : list nat) : Permutation l l' -> sum_list l = sum_list l'.
Proof. induction 1; simpl; lia. Qed.

Lemma total_points_push md motorId p :
  total_points (push md motorId p) = S (total_points md).
Proof.
  unfold total_points, push. destruct (md !! motorId) as [l|] eqn:E; simpl.
  - rewrite <- (insert_delete_eq md).
    rewrite (sum_list_perm _ _ (Permutation_map _
               (map_to_list_insert (delete motorId md) motorId (l ++ [p])%list
                  (lookup_delete_eq md motorId)))).
    rewrite <- (sum_list_perm _ _ (Permutation_map _
               (map_to_list_delete md motorId l E))).
    simpl. rewrite length_app. simpl. lia.
  - rewrite (sum_list_perm _ _ (Permutation_map _
               (map_to_list_insert md motorId [p] E))).
    done.
Qed.

Lemma total_points_sorted (md : gmap Z (list point)) :
  total_points (sort_by_t <$> md) = total_points md.
Proof.
  unfold total_points. rewrite map_to_list_fmap. f_equal.
  induction (map_to_list md) as [|[k l] rest IH]; [done|].
  cbn. f_equal; [|exact IH].
  symmetry. apply Permutation_length, sort_by_t_perm.
Qed.

Lemma no_empty_series_push md motorId p :
  no_empty_series md -> no_empty_series (push md motorId p).
Proof.
  intros H k series. unfold push. destruct (decide (motorId = k)) as [->|Hne].
  - rewrite lookup_insert_eq. intros [= <-]. by destruct (default [] (md !! k)).
  - rewrite lookup_insert_ne by done. apply H.
Qed.

Lemma sort_by_t_sorted_id l : sorted_by_t l -> sort_by_t l = l.
Proof.
  induction 1 as [|p l Hs IH Hp]; simpl; [done|]. rewrite IH.
  destruct l as [|q l']; [done|]. simpl.
  apply Forall_cons in Hp as [Hpq _]. by rewrite (proj2 (Z.leb_le _ _) Hpq).
Qed.

Section BuildMore.

Variable Date_getTime : string -> option Z.
Variable parseFloat : string -> option Q.


Lemma extremes_step l lo hi ts :
  extremes l lo hi ->
  extremes (l ++ [ts])
    (if lt_bound ts lo then At ts else lo)
    (if gt_bound ts hi then At ts else hi).
Proof.
  unfold extremes. destruct lo as [| |a], hi as [| |b]; try done.
  - intros ->. simpl. split; [by left|]. split; [by left|].
    intros ? [<-|[]]. lia.
  - intros (Ha & Hb & Hall). simpl.
    destruct (ts <? a) eqn:E1, (ts >? b) eqn:E2; zbool;
      (split; [|split]);
      try (apply in_or_app; (by left) || (right; by left));
      intros x [Hx|[<-|[]]]%in_app_or; try lia;
      specialize (Hall x Hx); lia.
Qed.

Lemma rows_extremes rows : forall st l,
  extremes l (minTime st) (maxTime st) ->
  let st' := fold_left (process_row Date_getTime parseFloat) rows st in
  extremes (l ++ omap (row_timestamp Date_getTime) rows) (minTime st') (maxTime st').
Proof.
  induction rows as [|r rows IH]; intros st l H; simpl.
  - by rewrite app_nil_r.
  - destruct (row_timestamp Date_getTime r) as [ts|] eqn:E.
    + rewrite (cons_middle ts), app_assoc.
      apply IH. unfold process_row. rewrite E. simpl. by apply extremes_step.
    + apply IH. unfold process_row. by rewrite E.
Qed.

Lemma rows_no_empty rows : forall st,
  no_empty_series (motorData st) ->
  no_empty_series (motorData (fold_left (process_row Date_getTime parseFloat) rows st)).
Proof.
  assert (Hcols : forall ts cols md,
    no_empty_series md ->
    no_empty_series (fold_left (process_column parseFloat ts) cols md)).
  { intros ts cols. induction cols as [|c cols IH]; intros md H; simpl; [done|].
    apply IH. rewrite process_column_sample.
    destruct (column_sample parseFloat ts c) as [[k p]|]; [|done].
    by apply no_empty_series_push. }
  induction rows as [|r rows IH]; intros st H; simpl; [done|].
  apply IH. unfold process_row.
  destruct (row_timestamp Date_getTime r); [|done]. simpl. by apply Hcols.
Qed.

Lemma rows_total rows : forall st,
  total_points (motorData (fold_left (process_row Date_getTime parseFloat) rows st))
  = (total_points (motorData st)
     + length (concat (map (row_samples Date_getTime parseFloat) rows)))%nat.
Proof.
  assert (Hcols : forall ts cols md,
    total_points (fold_left (process_column parseFloat ts) cols md)
    = (total_points md + length (omap (column_sample parseFloat ts) cols))%nat).
  { intros ts cols. induction cols as [|c cols IH]; intros md; simpl; [lia|].
    rewrite IH, process_column_sample.
    destruct (column_sample parseFloat ts c) as [[k p]|]; [|done].
    rewrite total_points_push. simpl. exact (plus_n_Sm _ _). }
  induction rows as [|r rows IH]; intros st; simpl; [lia|].
  rewrite IH, length_app. unfold process_row, row_samples.
  destruct (row_timestamp Date_getTime r); simpl; [|lia].
  rewrite Hcols. lia.
Qed.

Lemma collect_rows tables :
  collect Date_getTime parseFloat tables
  = fold_left (process_row Date_getTime parseFloat) (concat tables)
      {| motorData := ∅; minTime := Infinity; maxTime := NegInfinity |}.
Proof. unfold collect. by rewrite fold_tables. Qed.

Lemma collect_extremes tables :
  extremes (resolved Date_getTime tables)
    (minTime (collect Date_getTime parseFloat tables))
    (maxTime (collect Date_getTime parseFloat tables)).
Proof.
  rewrite collect_rows.
  apply (rows_extremes (concat tables) _ []). done.
Qed.

(** X5. The two bounds [buildDataStructure] returns are the least and the
    greatest timestamp among the rows that have one, whether or not a
    column of the row gave a point; they keep their start values
    [Infinity] and [-Infinity] exactly when no row has a timestamp. *)
Theorem buildDataStructure_bounds tables :
  extremes (resolved Date_getTime tables)
    (minTime (buildDataStructure Date_getTime parseFloat tables)) (maxTime (buildDataStructure Date_getTime parseFloat tables)).
Proof. unfold buildDataStructure. simpl. apply collect_extremes. Qed.

(** X6. Every point of every series lies between the two bounds returned
    with the map. *)
Theorem buildDataStructure_points_within_bounds tables motorId series p :
  motorData (buildDataStructure Date_getTime parseFloat tables) !! motorId = Some series ->
  In p series ->
  exists lo hi,
    minTime (buildDataStructure Date_getTime parseFloat tables) = At lo /\ maxTime (buildDataStructure Date_getTime parseFloat tables) = At hi /\
    lo <= t p <= hi.
Proof.
  intros Hl Hp. 
  apply buildDataStructure_lookup in Hl as ->.
  apply (Permutation_in _ (Permutation_sym (sort_by_t_perm _))) in Hp.
  apply pushed_origin in Hp as (table & r & [col cell] & ts & Ht & Hr & _ & Hts & Hc).
  apply column_sample_some in Hc as (_ & _ & _ & <-).
  assert (Hin : In (t p) (resolved Date_getTime tables)).
  { unfold resolved. apply list_elem_of_In, list_elem_of_omap. exists r.
    split; [|done]. apply list_elem_of_In, in_concat. by exists table. }
  pose proof (collect_extremes tables) as He. unfold extremes in He.
  unfold buildDataStructure. simpl.
  destruct (minTime _) as [| |lo], (maxTime _) as [| |hi]; try done.
  - rewrite He in Hin. done.
  - exists lo, hi. destruct He as (_ & _ & Hall). by repeat split; apply Hall.
Qed.

(** X7. A series is in the map exactly when a point was pushed for its
    motor, so no series of the map is empty. *)
Theorem buildDataStructure_no_empty_series tables motorId :
  (forall series, motorData (buildDataStructure Date_getTime parseFloat tables) !! motorId = Some series -> series <> []) /\
  (is_Some (motorData (buildDataStructure Date_getTime parseFloat tables) !! motorId) <->
   pushed Date_getTime parseFloat tables motorId <> []).
Proof.
  assert (Hne : no_empty_series (motorData (collect Date_getTime parseFloat tables))).
  { rewrite collect_rows. by apply rows_no_empty. }
  pose proof (collect_series Date_getTime parseFloat tables motorId) as Hs.
  unfold series_of in Hs. unfold buildDataStructure. simpl.
  rewrite lookup_fmap.
  destruct (motorData (collect Date_getTime parseFloat tables) !! motorId)
    as [s0|] eqn:E; simpl in *.
  - specialize (Hne _ _ E). split.
    + intros series [= <-] Hnil. apply Hne.
      apply Permutation_nil. rewrite <- Hnil.
      apply Permutation_sym, sort_by_t_perm.
    + split; [intros _; congruence | intros _; by eexists].
  - split; [done|]. split; [by intros [? ?] | intros H; by destruct H].
Qed.

(** X8. The map holds as many points as samples were accepted: one per
    row with a timestamp and column that is not a date-time column, has
    a number in its cell and a motor marker in its name. *)
Theorem buildDataStructure_point_count tables :
  total_points (motorData (buildDataStructure Date_getTime parseFloat tables))
  = length (accepted Date_getTime parseFloat tables).
Proof.
  unfold buildDataStructure. simpl.
  rewrite total_points_sorted, collect_rows, rows_total. done.
Qed.

(** X9. Tables are only a grouping of rows: the result for several tables
    is the result for the single table of all their rows in order. *)
Theorem buildDataStructure_tables_concat tables :
  buildDataStructure Date_getTime parseFloat tables
  = buildDataStructure Date_getTime parseFloat [concat tables].
Proof.
  unfold buildDataStructure.
  by rewrite !collect_rows, concat_cons, concat_nil, app_nil_r.
Qed.

(** X10. A row without a usable timestamp changes nothing: the result is
    the one for the rows that have a timestamp. *)
Theorem buildDataStructure_skips_rows rows :
  buildDataStructure Date_getTime parseFloat [rows]
  = buildDataStructure Date_getTime parseFloat [List.filter (resolvable Date_getTime) rows].
Proof.
  assert (H : forall st,
    fold_left (process_row Date_getTime parseFloat) rows st
    = fold_left (process_row Date_getTime parseFloat) (List.filter (resolvable Date_getTime) rows) st).
  { induction rows as [|r rows IH]; intros st; simpl; [done|].
    unfold resolvable at 1.
    destruct (row_timestamp Date_getTime r) eqn:E; simpl; [apply IH|].
    rewrite <- IH. f_equal. unfold process_row.
    by rewrite E. }
  unfold buildDataStructure.
  by rewrite !collect_rows, !concat_cons, !concat_nil, !app_nil_r, H.
Qed.

(** X11. When the points of a motor were pushed in time order, its series
    is the pushed sequence itself: the sort moves nothing. *)
Theorem buildDataStructure_keeps_order tables motorId series :
  motorData (buildDataStructure Date_getTime parseFloat tables) !! motorId = Some series ->
  sorted_by_t (pushed Date_getTime parseFloat tables motorId) ->
  series = pushed Date_getTime parseFloat tables motorId.
Proof.
  intros Hl Hs. apply buildDataStructure_lookup in Hl as ->.
  by apply sort_by_t_sorted_id.
Qed.

End BuildMore.

Lemma buildDataStructure_points_within_bounds_witness :
  exists lo hi,
    minTime (buildDataStructure Host.Date_utc Host.parseFloat example_tables) = At lo /\
    maxTime (buildDataStructure Host.Date_utc Host.parseFloat example_tables) = At hi /\
    lo <= 1710496800000 <= hi.
Proof.
  exact (buildDataStructure_points_within_bounds Host.Date_utc Host.parseFloat
           example_tables 7
           [ {| t := 1710493200000; value := 45.5 |};
             {| t := 1710493200000; value := 61 |};
             {| t := 1710496800000; value := 55.5 |} ]
           {| t := 1710496800000; value := 55.5 |}
           eq_refl (or_intror (or_intror (or_introl eq_refl)))).
Defined.

Lemma buildDataStructure_no_empty_series_witness :
  [ {| t := 1710493200000; value := 45.5 |};
    {| t := 1710493200000; value := 61 |};
    {| t := 1710496800000; value := 55.5 |} ] <> [] /\
  pushed Host.Date_utc Host.parseFloat example_tables 7 <> [].
Proof.
  destruct (buildDataStructure_no_empty_series Host.Date_utc Host.parseFloat
              example_tables 7) as [H1 H2].
  split.
  - exact (H1 _ eq_refl).
  - apply H2. eexists. reflexivity.
Defined.

Lemma buildDataStructure_keeps_order_witness :
  let tables : list (list row) :=
    [ [ [ ("Data", "15/03/24"); ("Hora", "09:00");
          ("SCA071TE402PV", "45.5"); ("SCA072TE402PV", "61") ];
        [ ("Data", "15/03/24"); ("Hora", "09:30");
          ("SCA071TE402PV", "47") ] ] ] in
  [ {| t := 1710493200000; value := 45.5 |};
    {| t := 1710493200000; value := 61 |};
    {| t := 1710495000000; value := 47 |} ]
  = pushed Host.Date_utc Host.parseFloat tables 7.
Proof.
  intros tables.
  apply (buildDataStructure_keeps_order Host.Date_utc Host.parseFloat tables 7);
    [reflexivity|].
  assert (pushed Host.Date_utc Host.parseFloat tables 7
          = [ {| t := 1710493200000; value := 45.5 |};
              {| t := 1710493200000; value := 61 |};
              {| t := 1710495000000; value := 47 |} ]) as -> by reflexivity.
  repeat constructor; simpl; lia.
Defined.

(** ** The motor marker and the decimal comma *)

Lemma search_value {A} (here : string -> option A) s g :
  search here s = Some g ->
  exists pre suf, s = pre +:+ suf /\ here suf = Some g.
Proof.
  induction s as [|c r IH]; simpl.
  - destruct (here "") eqn:E; [|done]. intros [= <-]. by exists "", "".
  - destruct (here (String c r)) eqn:E.
    + intros [= <-]. by exists "", (String c r).
    + intros (pre & suf & -> & Hs)%IH. by exists (String c pre), suf.
Qed.

Lemma digit_val_range c : Js.is_digit c = true -> 0 <= Js.digit_val c <= 9.
Proof.
  unfold Js.is_digit, Js.digit_val. intros [H1 H2]%andb_prop. zbool. lia.
Qed.

Lemma parseInt_two_digits a b :
  Js.is_digit a = true -> Js.is_digit b = true ->
  Js.parseInt (String a (String b "")) = Some (10 * Js.digit_val a + Js.digit_val b).
Proof.
  intros Ha Hb.
  destruct a as [[] [] [] [] [] [] [] []]; try discriminate Ha;
    destruct b as [[] [] [] [] [] [] [] []]; try discriminate Hb; reflexivity.
Qed.

Lemma sca_here_marker s g :
  sca_here s = Some g ->
  exists m a b suf,
    s = m +:+ String a (String b suf) /\ lower_string m = "sca" /\
    Js.is_digit a = true /\ Js.is_digit b = true /\
    g = String a (String b "").
Proof.
  intros H. unfold sca_here in H.
  destruct (Js.prefix_ci "SCA" s) eqn:E; [|done].
  apply prefix_ci_occurs in E as (m & suf & -> & Hl).
  destruct m as [|m1 [|m2 [|m3 [|? ?]]]]; try discriminate Hl.
  change (lower_string "SCA") with "sca" in Hl.
  cbv [String.append] in H.
  destruct suf as [|a [|b suf]]; try done.
  destruct (Js.is_digit a) eqn:Ea, (Js.is_digit b) eqn:Eb; try done.
  simpl in H. injection H as <-.
  by exists (String m1 (String m2 (String m3 ""))), a, b, suf.
Qed.

Lemma marker_sca_here m a b suf :
  lower_string m = "sca" -> Js.is_digit a = true -> Js.is_digit b = true ->
  sca_here (m +:+ String a (String b suf)) = Some (String a (String b "")).
Proof.
  intros Hl Ha Hb. unfold sca_here.
  assert (Js.prefix_ci "SCA" (m +:+ String a (String b suf)) = true) as ->.
  { apply prefix_ci_occurs. by exists m, (String a (String b suf)). }
  destruct m as [|m1 [|m2 [|m3 [|? ?]]]]; try discriminate Hl.
  cbv [String.append]. by rewrite Ha, Hb.
Qed.

(** X12. The motor number of a column is read from a marker in its name:
    the letters [SCA] in any case followed by two digits, anywhere in the
    name.  A name with a marker has a motor number, a name without one
    has none, and the number lies between 0 and 99. *)
Theorem motor_of_column_marker col :
  (forall motorId,
     motor_of_column col = Some motorId ->
     0 <= motorId <= 99 /\
     exists pre m a b suf,
       col = pre +:+ m +:+ String a (String b suf) /\ lower_string m = "sca" /\
       Js.is_digit a = true /\ Js.is_digit b = true /\
       motorId = 10 * Js.digit_val a + Js.digit_val b) /\
  (is_Some (motor_of_column col) <->
   exists pre m a b suf,
     col = pre +:+ m +:+ String a (String b suf) /\ lower_string m = "sca" /\
     Js.is_digit a = true /\ Js.is_digit b = true).
Proof.
  assert (Hsome : forall motorId,
     motor_of_column col = Some motorId ->
     0 <= motorId <= 99 /\
     exists pre m a b suf,
       col = pre +:+ m +:+ String a (String b suf) /\ lower_string m = "sca" /\
       Js.is_digit a = true /\ Js.is_digit b = true /\
       motorId = 10 * Js.digit_val a + Js.digit_val b).
  { intros motorId. unfold motor_of_column.
    destruct (search sca_here col) as [g|] eqn:E; [|done].
    apply search_value in E as (pre & s & -> & Hh).
    apply sca_here_marker in Hh as (m & a & b & suf & -> & Hl & Ha & Hb & ->).
    rewrite parseInt_two_digits by done. intros [= <-].
    pose proof (digit_val_range a Ha). pose proof (digit_val_range b Hb).
    split; [lia|]. by exists pre, m, a, b, suf. }
  split; [exact Hsome|]. split.
  - intros [motorId (_ & pre & m & a & b & suf & ? & ? & ? & ? & _)%Hsome].
    by exists pre, m, a, b, suf.
  - intros (pre & m & a & b & suf & -> & Hl & Ha & Hb).
    unfold motor_of_column.
    assert (Hs : is_Some (search sca_here (pre +:+ m +:+ String a (String b suf)))).
    { apply search_found. exists pre, (m +:+ String a (String b suf)).
      split; [done|]. rewrite marker_sca_here by done. by eexists. }
    destruct Hs as [g Hg]. rewrite Hg.
    apply search_value in Hg as (pre' & s & _ & Hh).
    apply sca_here_marker in Hh as (? & a' & b' & ? & _ & _ & Ha' & Hb' & ->).
    rewrite parseInt_two_digits by done. by eexists.
Qed.

Lemma motor_of_column_marker_witness :
  0 <= 7 <= 99 /\
  exists pre m a b suf,
    "T_sca071TE402PV" = pre +:+ m +:+ String a (String b suf) /\
    lower_string m = "sca" /\
    Js.is_digit a = true /\ Js.is_digit b = true /\
    7 = 10 * Js.digit_val a + Js.digit_val b.
Proof.
  exact (proj1 (motor_of_column_marker "T_sca071TE402PV") 7 eq_refl).
Defined.

(** X13. Only the first comma of a cell becomes a decimal point: the text
    up to it is kept, the text after it is kept with its commas; a cell
    without a comma is read as it is. *)
Theorem replace_comma_first a b :
  all_chars (fun c => negb (Ascii.eqb c ",")) a = true ->
  Js.replace_comma a = a /\
  Js.replace_comma (a +:+ String "," b) = a +:+ String "." b.
Proof.
  intros Ha. induction a as [|c a IH]; simpl; [done|].
  simpl in Ha. apply andb_prop in Ha as [Hc Ha]. apply negb_true_iff in Hc.
  rewrite Hc. destruct (IH Ha) as [-> ->]. done.
Qed.

Lemma replace_comma_first_witness :
  Js.replace_comma "1234" = "1234" /\
  Js.replace_comma ("1234" +:+ String "," "5,6") = "1234" +:+ String "." "5,6".
Proof.
  exact (replace_comma_first "1234" "5,6" eq_refl).
Defined.

(** ** More on computeMetrics *)

Lemma durations_qualifying dataArr startTime endTime :
  durations dataArr startTime endTime
  = (qualifying 50 (List.filter (in_range startTime endTime) dataArr),
     qualifying 40 (List.filter (in_range startTime endTime) dataArr)).
Proof.
  unfold durations.
  destruct (List.filter _ dataArr) as [|first rest]; [done|].
  apply accumulate_qualifying.
Qed.

Lemma interval_above_order prev curr :
  t prev <= t curr ->
  0 <= interval_above 50 prev curr <= interval_above 40 prev curr /\
  interval_above 40 prev curr <= t curr - t prev.
Proof.
  intros H. unfold interval_above.
  assert (H45 : (40 < 50)%Q) by reflexivity.
  destruct (Qlt_le_dec 50 (value prev)) as [Hp|Hp],
    (Qlt_le_dec 50 (value curr)) as [Hc|Hc],
    (Qlt_le_dec 40 (value prev)) as [Hp'|Hp'],
    (Qlt_le_dec 40 (value curr)) as [Hc'|Hc']; try lia;
    exfalso.
  - apply (Qlt_not_le _ _ (Qlt_trans _ _ _ H45 Hc)), Hc'.
  - apply (Qlt_not_le _ _ (Qlt_trans _ _ _ H45 Hp)), Hp'.
  - apply (Qlt_not_le _ _ (Qlt_trans _ _ _ H45 Hp)), Hp'.
Qed.

Lemma qualifying_order l :
  sorted_by_t l ->
  0 <= qualifying 50 l <= qualifying 40 l /\
  forall p rest, l = p :: rest -> qualifying 40 l <= t (List.last rest p) - t p.
Proof.
  induction 1 as [|p l Hs IH Hp]; [split; [done | discriminate]|].
  destruct l as [|q l'].
  - split; [done|]. intros ? ? [= <- <-]. simpl. lia.
  - apply Forall_cons in Hp as [Hpq _].
    pose proof (interval_above_order p q Hpq).
    destruct IH as [IH1 IH2]. specialize (IH2 q l' eq_refl).
    change (qualifying 50 (p :: q :: l'))
      with (interval_above 50 p q + qualifying 50 (q :: l')).
    change (qualifying 40 (p :: q :: l'))
      with (interval_above 40 p q + qualifying 40 (q :: l')).
    split; [lia|]. intros ? ? [= <- <-]. rewrite last_cons. lia.
Qed.

Lemma qualifying_full thr l :
  (forall p, In p l -> (thr < value p)%Q) ->
  forall p rest, l = p :: rest -> qualifying thr l = t (List.last rest p) - t p.
Proof.
  induction l as [|p l IH]; intros Hall ? ? [= <- <-].
  destruct l as [|q l']; [simpl; lia|].
  change (qualifying thr (p :: q :: l'))
    with (interval_above thr p q + qualifying thr (q :: l')).
  rewrite (IH (fun x Hx => Hall x (or_intror Hx)) q l' eq_refl), last_cons.
  unfold interval_above.
  destruct (Qlt_le_dec thr (value p)) as [_|Hn].
  - destruct (Qlt_le_dec thr (value q)) as [_|Hn]; [lia|].
    by apply Qle_not_lt in Hn; destruct Hn; apply Hall; right; left.
  - by apply Qle_not_lt in Hn; destruct Hn; apply Hall; left.
Qed.

Lemma qualifying_none thr l :
  (forall p, In p l -> (value p <= thr)%Q) -> qualifying thr l = 0.
Proof.
  induction l as [|p l IH]; intros Hall; [done|].
  destruct l as [|q l']; [done|].
  change (qualifying thr (p :: q :: l'))
    with (interval_above thr p q + qualifying thr (q :: l')).
  rewrite (IH (fun x Hx => Hall x (or_intror Hx))). unfold interval_above.
  destruct (Qlt_le_dec thr (value p)) as [Hp|_]; [|done].
  by apply Qlt_not_le in Hp; destruct Hp; apply Hall; left.
Qed.

Lemma qualifying_app thr l1 : forall l2,
  sorted_by_t (l1 ++ l2) ->
  qualifying thr l1 + qualifying thr l2 <= qualifying thr (l1 ++ l2).
Proof.
  induction l1 as [|p l1 IH]; intros l2 Hs; [simpl; lia|].
  destruct l1 as [|q l1'].
  - destruct l2 as [|q l2']; [simpl; lia|].
    change (qualifying thr ([p] ++ q :: l2'))
      with (interval_above thr p q + qualifying thr (q :: l2')).
    apply StronglySorted_inv in Hs as [_ [Hpq _]%Forall_cons].
    assert (0 <= interval_above thr p q).
    { unfold interval_above.
      destruct (Qlt_le_dec thr (value p)), (Qlt_le_dec thr (value q)); lia. }
    simpl (qualifying thr [p]). lia.
  - change (qualifying thr ((p :: q :: l1') ++ l2))
      with (interval_above thr p q + qualifying thr ((q :: l1') ++ l2)).
    change (qualifying thr (p :: q :: l1'))
      with (interval_above thr p q + qualifying thr (q :: l1')).
    apply StronglySorted_inv in Hs as [Hs _]. specialize (IH l2 Hs). lia.
Qed.

Lemma in_range_false startTime endTime p :
  in_range startTime endTime p = false <-> ~ (startTime <= t p <= endTime).
Proof.
  rewrite <- in_range_spec. by destruct (in_range startTime endTime p).
Qed.

Lemma filter_all_later l startTime mid p :
  Forall (fun q => t p <= t q) l -> mid < t p ->
  List.filter (in_range startTime mid) l = [].
Proof.
  intros Hp Hm. induction Hp as [|q l Hq Hp IH]; [done|].
  cbn [List.filter]. destruct (in_range startTime mid q) eqn:E; [|done].
  apply in_range_spec in E. lia.
Qed.

Lemma filter_window_split l startTime mid endTime :
  sorted_by_t l -> startTime - 1 <= mid <= endTime ->
  List.filter (in_range startTime endTime) l
  = (List.filter (in_range startTime mid) l
     ++ List.filter (in_range (mid + 1) endTime) l)%list.
Proof.
  intros Hs Hm. induction Hs as [|p l Hs IH Hp]; [done|].
  cbn [List.filter]. rewrite IH.
  destruct (in_range startTime endTime p) eqn:E,
    (in_range startTime mid p) eqn:E1,
    (in_range (mid + 1) endTime p) eqn:E2;
    repeat match goal with
    | H : in_range _ _ _ = true |- _ => apply in_range_spec in H
    | H : in_range _ _ _ = false |- _ => apply in_range_false in H
    end; try lia; try done.
  rewrite (filter_all_later l startTime mid p Hp) by lia. done.
Qed.

Lemma last_in {A} (x : A) l : In (List.last l x) (x :: l).
Proof.
  revert x. induction l as [|y l IH]; intros x; [by left|].
  right. rewrite last_cons. apply IH.
Qed.

(** X14. For a series sorted by [t] and a window whose start is not after
    its end, the availability duration is never negative, never exceeds
    the savings duration, and the savings duration never exceeds the
    length of the window. *)
Theorem durations_order dataArr startTime endTime :
  sorted_by_t dataArr -> startTime <= endTime ->
  let d := durations dataArr startTime endTime in
  0 <= fst d <= snd d /\ snd d <= endTime - startTime.
Proof.
  intros Hs Hw d. subst d. rewrite durations_qualifying. simpl.
  pose proof (filter_sorted (in_range startTime endTime) dataArr Hs) as Hf.
  destruct (qualifying_order _ Hf) as [H1 H2]. split; [done|].
  destruct (List.filter (in_range startTime endTime) dataArr)
    as [|p rest] eqn:E; [simpl; lia|].
  specialize (H2 p rest eq_refl).
  assert (Hp : In p (List.filter (in_range startTime endTime) dataArr))
    by (rewrite E; by left).
  assert (Hl : In (List.last rest p)
                 (List.filter (in_range startTime endTime) dataArr))
    by (rewrite E; apply last_in).
  apply filter_In in Hp as [_ Hp%in_range_spec].
  apply filter_In in Hl as [_ Hl%in_range_spec]. lia.
Qed.

Lemma durations_order_witness :
  let d := durations hour_apart 0 4000000 in
  0 <= fst d <= snd d /\ snd d <= 4000000 - 0.
Proof.
  apply (durations_order hour_apart 0 4000000 hour_apart_sorted). lia.
Defined.

(** X15. When every reading in the window exceeds 50, both durations are
    the time from the first kept point to the last one, with no sorting
    assumed: nothing of the covered span is lost. *)
Theorem durations_full dataArr startTime endTime first rest :
  List.filter (in_range startTime endTime) dataArr = first :: rest ->
  (forall p, In p dataArr -> startTime <= t p <= endTime -> (50 < value p)%Q) ->
  durations dataArr startTime endTime
  = (t (List.last rest first) - t first, t (List.last rest first) - t first).
Proof.
  intros E Hall. rewrite durations_qualifying, E.
  assert (H50 : forall p, In p (first :: rest) -> (50 < value p)%Q).
  { intros p Hp. rewrite <- E in Hp.
    apply filter_In in Hp as [Hp Hw%in_range_spec]. by apply Hall. }
  assert (H40 : forall p, In p (first :: rest) -> (40 < value p)%Q).
  { intros p Hp. apply Qlt_trans with 50%Q; [reflexivity | by apply H50]. }
  by rewrite (qualifying_full 50 _ H50 first rest),
    (qualifying_full 40 _ H40 first rest).
Qed.

Lemma durations_full_witness :
  durations hour_apart 0 3600000 = (3600000 - 0, 3600000 - 0).
Proof.
  apply (durations_full hour_apart 0 3600000
           {| t := 0; value := 60 |} [ {| t := 3600000; value := 70 |} ] eq_refl).
  intros p [<-|[<-|[]]] _; reflexivity.
Defined.



(** X17. Only the points in the window count: filtering the series first
    with a window that contains the queried one gives the same metrics,
    so the points drawn for a wider range and the full series agree. *)
Theorem computeMetrics_prefiltered cfg dataArr startTime endTime wideStart wideEnd :
  wideStart <= startTime -> endTime <= wideEnd ->
  computeMetrics cfg (List.filter (in_range wideStart wideEnd) dataArr)
    startTime endTime
  = computeMetrics cfg dataArr startTime endTime.
Proof.
  intros H1 H2. rewrite !computeMetrics_filtered.
  assert (List.filter (in_range startTime endTime)
            (List.filter (in_range wideStart wideEnd) dataArr)
          = List.filter (in_range startTime endTime) dataArr) as ->; [|done].
  induction dataArr as [|p l IH]; [done|]. cbn [List.filter].
  destruct (in_range wideStart wideEnd p) eqn:Ew; cbn [List.filter].
  - by rewrite IH.
  - rewrite IH. destruct (in_range startTime endTime p) eqn:E; [|done].
    apply in_range_spec in E. apply in_range_false in Ew. lia.
Qed.

Lemma computeMetrics_prefiltered_witness :
  computeMetrics default_rates (List.filter (in_range (-5) 4000000) hour_apart)
    0 3600000
  = computeMetrics default_rates hour_apart 0 3600000.
Proof.
  apply (computeMetrics_prefiltered default_rates hour_apart 0 3600000 (-5) 4000000);
    lia.
Defined.

(** X18. Cutting a window in two never gains time: for a series sorted by
    [t], the durations over [[startTime, mid]] and over
    [[mid + 1, endTime]] add up to at most the durations over the whole
    window (the interval that straddles the cut is lost). *)
Theorem durations_split dataArr startTime mid endTime :
  sorted_by_t dataArr -> startTime - 1 <= mid <= endTime ->
  let whole := durations dataArr startTime endTime in
  let left := durations dataArr startTime mid in
  let right := durations dataArr (mid + 1) endTime in
  fst left + fst right <= fst whole /\ snd left + snd right <= snd whole.
Proof.
  intros Hs Hm whole left right. subst whole left right.
  rewrite !durations_qualifying. simpl.
  rewrite (filter_window_split dataArr startTime mid endTime Hs Hm).
  assert (Hf : sorted_by_t
                 (List.filter (in_range startTime mid) dataArr
                  ++ List.filter (in_range (mid + 1) endTime) dataArr)).
  { rewrite <- filter_window_split by done. by apply filter_sorted. }
  split; by apply qualifying_app.
Qed.

Lemma durations_split_witness :
  fst (durations hour_apart 0 1000) + fst (durations hour_apart (1000 + 1) 3600000)
  <= fst (durations hour_apart 0 3600000) /\
  snd (durations hour_apart 0 1000) + snd (durations hour_apart (1000 + 1) 3600000)
  <= snd (durations hour_apart 0 3600000).
Proof.
  apply (durations_split hour_apart 0 1000 3600000 hour_apart_sorted). lia.
Defined.

(** ** The chart, the cards and the buttons *)

Lemma trace_fold startTime endTime l : forall xs ys,
  fold_left (trace_step startTime endTime) l (xs, ys)
  = ((xs ++ map t (List.filter (in_range startTime endTime) l))%list,
     (ys ++ map value (List.filter (in_range startTime endTime) l))%list).
Proof.
  induction l as [|p l IH]; intros xs ys; cbn [fold_left List.filter].
  - by rewrite !app_nil_r.
  - unfold trace_step at 2. destruct (in_range startTime endTime p).
    + cbn [fst snd map]. by rewrite IH, <- !app_assoc.
    + apply IH.
Qed.

(** X19. The trace drawn for a motor holds exactly the points
    [computeMetrics] keeps for the same window, in the same order: the
    instants in [x], the values in [y]; the last temperature of the
    metrics is the last value of the trace, and there is none exactly
    when the trace is empty. *)
Theorem trace_matches_metrics cfg md motorId startTime endTime :
  let kept := List.filter (in_range startTime endTime) (series_of md motorId) in
  let xy := trace md motorId startTime endTime in
  xy = (map t kept, map value kept) /\
  lastTemperature (computeMetrics cfg (series_of md motorId) startTime endTime)
  = last (snd xy).
Proof.
  intros kept xy. subst xy. unfold trace. fold (series_of md motorId).
  rewrite trace_fold. fold kept. cbn [app snd]. split; [done|].
  rewrite computeMetrics_filtered. fold kept.
  destruct kept as [|first rest]; [done|].
  cbv zeta. cbn [lastTemperature].
  rewrite (app_removelast_last first (l := first :: rest)) at 2 by done.
  rewrite map_app. cbn [map]. by rewrite last_snoc.
Qed.

Lemma button_disabled_has_data md motorId :
  button_disabled md motorId = negb (has_data md motorId).
Proof.
  unfold button_disabled, has_data. by destruct (md !! motorId) as [[|? ?]|].
Qed.

Lemma first_enabled_seq (off : Z -> bool) n : forall a motorId,
  first_enabled (map (fun i => (i, off i)) (map Z.of_nat (seq a n))) = Some motorId <->
  Z.of_nat a <= motorId < Z.of_nat (a + n) /\ off motorId = false /\
  forall j, Z.of_nat a <= j < motorId -> off j = true.
Proof.
  unfold first_enabled.
  induction n as [|n IH]; intros a motorId; cbn [seq map List.find].
  - split; [done|]. lia.
  - cbn [snd]. destruct (off (Z.of_nat a)) eqn:E; cbn [negb].
    + rewrite IH. split.
      * intros (Hr & Ho & Hall). split; [lia|]. split; [done|].
        intros j Hj. destruct (decide (j = Z.of_nat a)) as [->|]; [done|].
        apply Hall. lia.
      * intros (Hr & Ho & Hall).
        assert (motorId <> Z.of_nat a) by (intros ->; congruence).
        split; [lia|]. split; [done|]. intros j Hj. apply Hall. lia.
    + cbn [fmap option_fmap option_map fst]. split.
      * intros [= <-]. split; [lia|]. split; [done|]. intros; lia.
      * intros (Hr & Ho & Hall). f_equal.
        destruct (decide (Z.of_nat a = motorId)) as [|Hne]; [done|].
        rewrite Hall in E; [done | lia].
Qed.

(** X20. The motor selected when the page opens, the one of the first
    button that is not disabled, is the least motor number from 1 to 23
    that has data; none is selected exactly when no motor from 1 to 23
    has data. *)
Theorem first_enabled_least md :
  (forall motorId,
     first_enabled (renderMotorButtons md) = Some motorId <->
     1 <= motorId <= 23 /\ has_data md motorId = true /\
     forall j, 1 <= j < motorId -> has_data md j = false) /\
  (first_enabled (renderMotorButtons md) = None <->
   forall j, 1 <= j <= 23 -> has_data md j = false).
Proof.
  assert (Hsome : forall motorId,
     first_enabled (renderMotorButtons md) = Some motorId <->
     1 <= motorId <= 23 /\ has_data md motorId = true /\
     forall j, 1 <= j < motorId -> has_data md j = false).
  { intros motorId. unfold renderMotorButtons, motor_ids.
    rewrite (first_enabled_seq (button_disabled md) 23 1 motorId).
    setoid_rewrite button_disabled_has_data.
    setoid_rewrite negb_false_iff. setoid_rewrite negb_true_iff.
    split; intros (Hr & Hd & Hall); (split; [lia|]); (split; [done|]);
      intros j Hj; apply Hall; lia. }
  split; [exact Hsome|]. split.
  - intros Hnone j Hj. unfold first_enabled in Hnone.
    destruct (List.find _ (renderMotorButtons md)) as [b|] eqn:E; [done|].
    assert (Hin : In (j, button_disabled md j) (renderMotorButtons md)).
    { unfold renderMotorButtons.
      apply (in_map (fun i => (i, button_disabled md i))). by apply motor_ids_range. }
    pose proof (find_none _ _ E _ Hin) as Hf.
    cbn [snd] in Hf. by rewrite button_disabled_has_data, negb_involutive in Hf.
  - intros Hall. destruct (first_enabled (renderMotorButtons md)) as [k|] eqn:E;
      [|done].
    destruct (proj1 (Hsome k) eq_refl) as (Hr & Hd & _).
    rewrite Hall in Hd; [done | lia].
Qed.

Lemma first_enabled_least_witness :
  first_enabled (renderMotorButtons {[ 9 := hour_apart; 4 := hour_apart; 30 := hour_apart ]})
  = Some 4.
Proof.
  apply (proj1 (first_enabled_least
                  {[ 9 := hour_apart; 4 := hour_apart; 30 := hour_apart ]})).
  split; [lia|]. split; [reflexivity|].
  intros j Hj.
  assert (j = 1 \/ j = 2 \/ j = 3) as [->|[->| ->]] by lia; reflexivity.
Defined.

Lemma lastTemperature_last cfg dataArr startTime endTime :
  lastTemperature (computeMetrics cfg dataArr startTime endTime)
  = value <$> last (List.filter (in_range startTime endTime) dataArr).
Proof.
  rewrite computeMetrics_filtered.
  destruct (List.filter (in_range startTime endTime) dataArr) as [|p rest]; [done|].
  cbv zeta. cbn [lastTemperature].
  rewrite (app_removelast_last p (l := p :: rest)) at 2 by done.
  by rewrite last_snoc.
Qed.

Lemma availability_qualifying cfg dataArr startTime endTime :
  availability (computeMetrics cfg dataArr startTime endTime)
  = format_availability
      (qualifying 50 (List.filter (in_range startTime endTime) dataArr)).
Proof.
  rewrite computeMetrics_filtered.
  by destruct (List.filter (in_range startTime endTime) dataArr).
Qed.

(** X21. The image of a card is the green one exactly when the window
    keeps a point and the last kept point reads at least 50.  The
    availability counts only readings above 50: a motor whose kept
    readings all equal 50 gets the green image with an availability of
    ["00:00 h"]. *)
Theorem metric_card_image cfg md heatingData startTime endTime motorId :
  let kept := List.filter (in_range startTime endTime) (series_of md motorId) in
  let c := metric_card cfg md heatingData startTime endTime motorId in
  (imgSrc c = "Genset_Verde.png" <->
   exists front q, kept = (front ++ [q])%list /\ (50 <= value q)%Q) /\
  (kept <> [] -> (forall p, In p kept -> (value p == 50)%Q) ->
   imgSrc c = "Genset_Verde.png" /\
   disponibilidade c = "Disponibilidade: 00:00 h").
Proof.
  intros kept c. subst c. unfold metric_card. fold (series_of md motorId).
  cbn [imgSrc disponibilidade].
  rewrite lastTemperature_last, availability_qualifying. fold kept.
  assert (Hiff : (if match value <$> last kept with
                     | Some v => Qle_bool 50 v
                     | None => false
                     end
                  then "Genset_Verde.png" else "Genset_Vermelho.png")
                 = "Genset_Verde.png" <->
                 exists front q, kept = (front ++ [q])%list /\ (50 <= value q)%Q).
  { destruct (last kept) as [q|] eqn:E; cbn.
    - apply last_Some in E as [front E]. split.
      + intros H. exists front, q. split; [done|]. apply Qle_bool_iff.
        by destruct (Qle_bool 50 (value q)).
      + intros (front' & q' & E' & Hq). rewrite E in E'.
        apply app_inj_tail in E' as [_ <-].
        by rewrite (proj2 (Qle_bool_iff _ _) Hq).
    - apply last_None in E. split; [done|].
      intros (front & q & E' & _). rewrite E in E'. by destruct front. }
  split; [exact Hiff|].
  intros Hne Hall. split.
  - apply Hiff. destruct (last kept) as [q|] eqn:E.
    + apply last_Some in E as [front E]. exists front, q. split; [done|].
      rewrite (Hall q); [apply Qle_refl|]. rewrite E. apply in_or_app. right. by left.
    + by apply last_None in E.
  - rewrite qualifying_none; [done|].
    intros p Hp. rewrite (Hall p Hp). apply Qle_refl.
Qed.

Lemma metric_card_image_witness :
  let md : gmap Z (list point) :=
    {[ 2 := [ {| t := 0; value := 50 |}; {| t := 3600000; value := 50 |} ] ]} in
  imgSrc (metric_card default_rates md ∅ 0 3600000 2) = "Genset_Verde.png" /\
  disponibilidade (metric_card default_rates md ∅ 0 3600000 2)
  = "Disponibilidade: 00:00 h".
Proof.
  intros md.
  apply (proj2 (metric_card_image default_rates md ∅ 0 3600000 2)).
  - discriminate.
  - intros p [<-|[<-|[]]]; reflexivity.
Defined.

(** ** More on updateSummaryPanel *)

Lemma fold_left_ext_in {A B} (f g : A -> B -> A) l : forall a,
  (forall x b, In b l -> f x b = g x b) -> fold_left f l a = fold_left g l a.
Proof.
  induction l as [|b l IH]; intros a H; simpl; [done|].
  rewrite (H a b (or_introl eq_refl)). apply IH. intros x b' Hb. apply H. by right.
Qed.

(** X22. The summary reads the entries of motors 1 to 23 only: two series
    maps and two flag maps that agree on these motors give the same list
    and the same three totals, whatever they hold for other motors. *)
Theorem updateSummaryPanel_reads_1_to_23 cfg md md' (heatingData heatingData' : gmap Z bool)
    startTime endTime :
  (forall motorId, 1 <= motorId <= 23 ->
     md !! motorId = md' !! motorId /\
     heatingData !! motorId = heatingData' !! motorId) ->
  updateSummaryPanel cfg md heatingData startTime endTime
  = updateSummaryPanel cfg md' heatingData' startTime endTime.
Proof.
  intros Hagree. rewrite !updateSummaryPanel_fields. cbv zeta.
  assert (Hids : forall motorId, In motorId motor_ids -> 1 <= motorId <= 23)
    by (intros; by apply motor_ids_range).
  set (ids := motor_ids) in *. clearbody ids.
  assert (Hd : forall i, In i ids -> has_data md i = has_data md' i).
  { intros i Hi. unfold has_data. by rewrite (proj1 (Hagree i (Hids i Hi))). }
  assert (Hh : forall i, In i ids ->
            is_heating heatingData i = is_heating heatingData' i).
  { intros i Hi. unfold is_heating. by rewrite (proj2 (Hagree i (Hids i Hi))). }
  assert (Hl : List.filter (fun i => is_heating heatingData i && has_data md i) ids
             = List.filter (fun i => is_heating heatingData' i && has_data md' i) ids).
  { apply filter_ext_in. intros i Hi. by rewrite Hd, Hh. }
  rewrite Hl.
  set (listed := List.filter _ ids).
  assert (Hlisted : forall i, In i listed -> In i ids)
    by (intros i [Hi _]%filter_In; done).
  clearbody listed. f_equal.
  - f_equal. apply fold_left_ext_in. intros x i Hi.
    by rewrite (proj1 (Hagree i (Hids i (Hlisted i Hi)))).
  - f_equal. apply fold_left_ext_in. intros x i Hi.
    by rewrite (proj1 (Hagree i (Hids i (Hlisted i Hi)))).
  - apply fold_left_ext_in. intros x i Hi.
    by rewrite (Hd i Hi), (proj1 (Hagree i (Hids i Hi))).
Qed.

Lemma updateSummaryPanel_reads_1_to_23_witness :
  updateSummaryPanel default_rates {[ 3 := hour_apart ]} {[ 3 := true ]} 0 3600000
  = updateSummaryPanel default_rates {[ 3 := hour_apart; 24 := hour_apart ]}
      {[ 3 := true; 24 := true ]} 0 3600000.
Proof.
  apply updateSummaryPanel_reads_1_to_23. intros motorId Hr.
  assert (motorId <> 24) by lia.
  destruct (decide (motorId = 3)) as [->|]; by simplify_map_eq.
Defined.

(** ** The data entry page *)

Lemma fold_insert_out {V} (f : string -> V) l key : forall ls : gmap string V,
  ~ In key l ->
  fold_left (fun ls id => <[id := f id]> ls) l ls !! key = ls !! key.
Proof.
  induction l as [|id l IH]; intros ls Hout; [done|]. cbn [fold_left].
  rewrite IH by (intros ?; apply Hout; by right).
  apply lookup_insert_ne. intros ->. apply Hout. by left.
Qed.

Lemma find_key_none events key :
  ~ In key (map DataPage.event_key events) ->
  List.find (fun ev => String.eqb (DataPage.event_key ev) key) events = None.
Proof.
  induction events as [|ev events IH]; [done|]. cbn [map List.find]. intros Hout.
  destruct (String.eqb_spec (DataPage.event_key ev) key) as [E|_].
  - destruct Hout. by left.
  - apply IH. intros ?. apply Hout. by right.
Qed.

Lemma apply_events_lookup events key : forall r,
  List.NoDup (map DataPage.event_key events) ->
  apply_events events r !! key
  = match List.find (fun ev => String.eqb (DataPage.event_key ev) key) events with
    | Some ev => Some (DataPage.event_text ev)
    | None => r !! key
    end.
Proof.
  unfold apply_events.
  induction events as [|ev events IH]; intros r Hnd; [done|].
  cbn [fold_left map List.find] in *. apply List.NoDup_cons_iff in Hnd as [Hout Hnd].
  rewrite IH by done.
  destruct (String.eqb_spec (DataPage.event_key ev) key) as [<-|Hne].
  - by rewrite find_key_none, lookup_insert_eq.
  - destruct (List.find _ events); [done|]. by apply lookup_insert_ne.
Qed.

Section DataPageRun.

Variable parseFloat : string -> option Q.
Variable toString : Q -> string.
Variable accepts : gmap string string -> string -> string -> bool.
Variable files : string -> bool.
Variable heating : string.
Variable priceInput : string.
Variable consumptionInput : string.

Local Abbreviation try_setItem := (DataPage.try_setItem accepts).
Local Abbreviation store_files := (DataPage.store_files accepts).
Local Abbreviation store_heating := (DataPage.store_heating accepts heating).
Local Abbreviation store_consumption :=
  (DataPage.store_consumption parseFloat toString accepts consumptionInput).
Local Abbreviation store_rates :=
  (DataPage.store_rates parseFloat toString accepts priceInput consumptionInput).
Local Abbreviation proceed :=
  (DataPage.proceed parseFloat toString accepts heating priceInput consumptionInput).
Local Abbreviation handle :=
  (DataPage.handle parseFloat toString accepts heating priceInput consumptionInput).
Local Abbreviation submit :=
  (DataPage.submit parseFloat toString accepts files heating priceInput consumptionInput).
Local Abbreviation run :=
  (DataPage.run parseFloat toString accepts files heating priceInput consumptionInput).

(** *** One guarded write *)

Lemma try_setItem_cases msg key value acc :
  (accepts acc.1 key value = true /\
   try_setItem msg key value acc = (<[key := value]> acc.1, acc.2)) \/
  (accepts acc.1 key value = false /\
   try_setItem msg key value acc = (acc.1, (acc.2 ++ [msg])%list)).
Proof.
  unfold DataPage.try_setItem, DataPage.setItem.
  destruct (accepts _ _ _); [left | right]; done.
Qed.

Lemma try_setItem_other msg key value acc k :
  k <> key -> (try_setItem msg key value acc).1 !! k = acc.1 !! k.
Proof.
  intros Hk. destruct (try_setItem_cases msg key value acc) as [[_ ->]|[_ ->]];
    cbn [fst]; [by apply lookup_insert_ne | done].
Qed.

Lemma try_setItem_log msg key value acc m :
  In m acc.2 -> In m (try_setItem msg key value acc).2.
Proof.
  intros Hm. destruct (try_setItem_cases msg key value acc) as [[_ ->]|[_ ->]];
    cbn [snd]; [done | apply in_or_app; by left].
Qed.

Lemma try_setItem_quiet msg key value acc :
  (try_setItem msg key value acc).2 = [] ->
  acc.2 = [] /\ (try_setItem msg key value acc).1 = <[key := value]> acc.1.
Proof.
  destruct (try_setItem_cases msg key value acc) as [[_ ->]|[_ ->]]; cbn [fst snd].
  - done.
  - intros H. apply app_eq_nil in H as [_ H]. discriminate.
Qed.

Lemma try_setItem_refused msg key value acc :
  (try_setItem msg key value acc).1 !! key <> Some value ->
  (try_setItem msg key value acc).1 = acc.1 /\
  In msg (try_setItem msg key value acc).2.
Proof.
  destruct (try_setItem_cases msg key value acc) as [[_ ->]|[_ ->]]; cbn [fst snd].
  - rewrite lookup_insert_eq. done.
  - intros _. split; [done|]. apply in_or_app. right. by left.
Qed.

(** *** The files *)

Lemma store_files_fold (results : gmap string string) l : forall acc k,
  let res :=
    fold_left
      (fun acc id => try_setItem DataPage.file_error id (or_else (results !! id) "") acc)
      l acc in
  (~ In k l -> res.1 !! k = acc.1 !! k) /\
  (forall m, In m acc.2 -> In m res.2) /\
  (res.1 !! k = Some (or_else (results !! k) "") \/ res.1 !! k = acc.1 !! k) /\
  (In k l -> res.1 !! k <> Some (or_else (results !! k) "") ->
   In DataPage.file_error res.2) /\
  (res.2 = [] ->
   acc.2 = [] /\
   res.1 = fold_left (fun ls id => <[id := or_else (results !! id) ""]> ls) l acc.1).
Proof.
  induction l as [|id l IH]; intros acc k; cbn [fold_left].
  - cbv zeta. repeat split; auto. by intros [].
  - set (acc' := try_setItem DataPage.file_error id (or_else (results !! id) "") acc).
    destruct (IH acc' k) as (Hout & Hlog & Hkey & Herr & Hq). cbv zeta in *.
    split; [|split; [|split; [|split]]].
    + intros Hk. rewrite Hout by (intros ?; apply Hk; by right).
      apply try_setItem_other. intros ->. apply Hk. by left.
    + intros m Hm. apply Hlog. by apply try_setItem_log.
    + destruct Hkey as [Hkey|Hkey]; [by left|]. rewrite Hkey.
      destruct (decide (k = id)) as [->|Hne].
      * subst acc'.
        destruct (try_setItem_cases DataPage.file_error id
                    (or_else (results !! id) "") acc) as [[_ ->]|[_ ->]]; cbn [fst].
        -- left. by rewrite lookup_insert_eq.
        -- by right.
      * right. by apply try_setItem_other.
    + intros Hin Hne.
      destruct (in_dec string_dec k l) as [Hl|Hl]; [by apply Herr|].
      destruct Hin as [->|?]; [|done].
      rewrite Hout in Hne by done. apply Hlog.
      by apply try_setItem_refused.
    + intros Hnil. destruct (Hq Hnil) as [Hacc' ->]. subst acc'.
      destruct (try_setItem_quiet _ _ _ _ Hacc') as [Hacc ->]. done.
Qed.

(** *** The rates *)

Lemma store_consumption_spec acc : forall k,
  let res := store_consumption acc in
  (k <> "dieselConsumption" -> res.1 !! k = acc.1 !! k) /\
  (forall m, In m acc.2 -> In m res.2) /\
  (res.2 = [] ->
   acc.2 = [] /\
   res.1 = match parseFloat consumptionInput with
           | Some consVal => <["dieselConsumption" := toString consVal]> acc.1
           | None => acc.1
           end).
Proof.
  intros k. unfold DataPage.store_consumption.
  destruct (parseFloat consumptionInput) as [v|]; cbv zeta.
  - split; [|split].
    + intros ?. by apply try_setItem_other.
    + intros m. apply try_setItem_log.
    + apply try_setItem_quiet.
  - done.
Qed.

Lemma store_rates_spec acc : forall k,
  let res := store_rates acc in
  (k <> "dieselPrice" -> k <> "dieselConsumption" -> res.1 !! k = acc.1 !! k) /\
  (forall m, In m acc.2 -> In m res.2) /\
  (res.2 = [] ->
   acc.2 = [] /\
   res.1 = match parseFloat consumptionInput with
           | Some consVal =>
               <["dieselConsumption" := toString consVal]>
                 (match parseFloat priceInput with
                  | Some priceVal => <["dieselPrice" := toString priceVal]> acc.1
                  | None => acc.1
                  end)
           | None =>
               match parseFloat priceInput with
               | Some priceVal => <["dieselPrice" := toString priceVal]> acc.1
               | None => acc.1
               end
           end) /\
  (forall v, parseFloat priceInput = Some v ->
     res.1 !! "dieselPrice" <> Some (toString v) ->
     res.1 = acc.1 /\ In DataPage.diesel_error res.2).
Proof.
  intros k. unfold DataPage.store_rates, DataPage.setItem.
  destruct (parseFloat priceInput) as [p|]; cbv zeta.
  - destruct (accepts acc.1 "dieselPrice" (toString p)).
    + destruct (store_consumption_spec (<["dieselPrice" := toString p]> acc.1, acc.2) k)
        as (Ho & Hl & Hq).
      destruct (store_consumption_spec (<["dieselPrice" := toString p]> acc.1, acc.2)
                  "dieselPrice") as (Hp & _ & _).
      cbv zeta in *. cbn [fst snd] in *.
      split; [|split; [|split]].
      * intros K1 K2. rewrite Ho by done. by apply lookup_insert_ne.
      * exact Hl.
      * intros Hnil. destruct (Hq Hnil) as [-> ->].
        split; [done|]. by destruct (parseFloat consumptionInput).
      * intros v [= <-] Hne. rewrite Hp, lookup_insert_eq in Hne by done. done.
    + cbn [fst snd]. split; [|split; [|split]].
      * done.
      * intros m Hm. apply in_or_app. by left.
      * intros H. apply app_eq_nil in H as [_ H]. discriminate.
      * intros v _ _. split; [done|]. apply in_or_app. right. by left.
  - destruct (store_consumption_spec acc k) as (Ho & Hl & Hq). cbv zeta in *.
    split; [|split; [|split]].
    + intros _ K2. by apply Ho.
    + exact Hl.
    + intros Hnil. destruct (Hq Hnil) as [-> ->].
      split; [done|]. by destruct (parseFloat consumptionInput).
    + intros v [=].
Qed.

(** *** The three guarded stages together *)

Lemma stages_spec (results ls : gmap string string) log : forall k,
  let res := store_rates (store_heating (store_files results (ls, log))) in
  (~ In k DataPage.fileInputs -> k <> "heating" -> k <> "dieselPrice" ->
   k <> "dieselConsumption" -> res.1 !! k = ls !! k) /\
  (forall m, In m log -> In m res.2) /\
  (In k DataPage.fileInputs ->
   (res.1 !! k = Some (or_else (results !! k) "") \/ res.1 !! k = ls !! k) /\
   (res.1 !! k <> Some (or_else (results !! k) "") ->
    In DataPage.file_error res.2)) /\
  (res.1 !! "heating" = Some heating \/ res.1 !! "heating" = ls !! "heating") /\
  (res.1 !! "heating" <> Some heating -> In DataPage.heating_error res.2) /\
  (forall v, parseFloat priceInput = Some v ->
     res.1 !! "dieselPrice" <> Some (toString v) ->
     res.1 !! "dieselPrice" = ls !! "dieselPrice" /\
     res.1 !! "dieselConsumption" = ls !! "dieselConsumption" /\
     In DataPage.diesel_error res.2) /\
  (res.2 = [] ->
   log = [] /\
   <["hasData" := "true"]> res.1
   = written parseFloat toString heating priceInput consumptionInput results ls).
Proof.
  intros k. cbv zeta.
  set (a1 := store_files results (ls, log)).
  set (a2 := store_heating a1).
  set (a3 := store_rates a2).
  assert (Hfiles : forall k',
    (~ In k' DataPage.fileInputs -> a1.1 !! k' = ls !! k') /\
    (forall m, In m log -> In m a1.2) /\
    (a1.1 !! k' = Some (or_else (results !! k') "") \/ a1.1 !! k' = ls !! k') /\
    (In k' DataPage.fileInputs -> a1.1 !! k' <> Some (or_else (results !! k') "") ->
     In DataPage.file_error a1.2) /\
    (a1.2 = [] ->
     log = [] /\
     a1.1 = fold_left (fun ls id => <[id := or_else (results !! id) ""]> ls)
              DataPage.fileInputs ls)).
  { intros k'. exact (store_files_fold results DataPage.fileInputs (ls, log) k'). }
  assert (Hheat_other : forall k', k' <> "heating" -> a2.1 !! k' = a1.1 !! k').
  { intros k' ?. by apply try_setItem_other. }
  assert (Hheat_log : forall m, In m a1.2 -> In m a2.2).
  { intros m. apply try_setItem_log. }
  assert (Hrates : forall k',
    (k' <> "dieselPrice" -> k' <> "dieselConsumption" -> a3.1 !! k' = a2.1 !! k') /\
    (forall m, In m a2.2 -> In m a3.2) /\
    (a3.2 = [] ->
     a2.2 = [] /\
     a3.1 = match parseFloat consumptionInput with
            | Some consVal =>
                <["dieselConsumption" := toString consVal]>
                  (match parseFloat priceInput with
                   | Some priceVal => <["dieselPrice" := toString priceVal]> a2.1
                   | None => a2.1
                   end)
            | None =>
                match parseFloat priceInput with
                | Some priceVal => <["dieselPrice" := toString priceVal]> a2.1
                | None => a2.1
                end
            end) /\
    (forall v, parseFloat priceInput = Some v ->
       a3.1 !! "dieselPrice" <> Some (toString v) ->
       a3.1 = a2.1 /\ In DataPage.diesel_error a3.2)).
  { intros k'. exact (store_rates_spec a2 k'). }
  assert (Nfiles : forall k', In k' DataPage.fileInputs ->
            k' <> "heating" /\ k' <> "dieselPrice" /\ k' <> "dieselConsumption").
  { intros k' Hk'. cbn in Hk'.
    destruct Hk' as [<-|[<-|[<-|[<-|[]]]]]; repeat split; discriminate. }
  assert (Nrates : ~ In "dieselPrice" DataPage.fileInputs /\
                   ~ In "dieselConsumption" DataPage.fileInputs /\
                   ~ In "heating" DataPage.fileInputs).
  { cbn. intuition discriminate. }
  destruct Nrates as (Np & Nc & Nh).
  split; [|split; [|split; [|split; [|split; [|split]]]]].
  - intros K1 K2 K3 K4.
    rewrite (proj1 (Hrates k)), Hheat_other by done. by apply Hfiles.
  - intros m Hm. apply Hrates; [exact k|]. apply Hheat_log. by apply (Hfiles k).
  - intros Hk. destruct (Nfiles k Hk) as (K2 & K3 & K4).
    rewrite (proj1 (Hrates k)), Hheat_other by done.
    split; [apply Hfiles|].
    intros Hne. apply (Hrates k), Hheat_log. by apply (Hfiles k).
  - rewrite (proj1 (Hrates "heating")) by done.
    subst a2. unfold DataPage.store_heating.
    destruct (try_setItem_cases DataPage.heating_error "heating" heating a1)
      as [[_ ->]|[_ ->]]; cbn [fst].
    + left. by rewrite lookup_insert_eq.
    + right. by apply Hfiles.
  - rewrite (proj1 (Hrates "heating")) by done. intros Hne.
    apply (Hrates k). subst a2. unfold DataPage.store_heating in *.
    by apply try_setItem_refused.
  - intros v Hv Hne.
    destruct (proj2 (proj2 (proj2 (Hrates k))) v Hv Hne) as [-> Herr].
    rewrite !Hheat_other by done.
    split; [by apply Hfiles|]. split; [by apply Hfiles|done].
  - intros Hnil.
    destruct (proj1 (proj2 (proj2 (Hrates k))) Hnil) as [H2 ->].
    subst a2. unfold DataPage.store_heating in *.
    destruct (try_setItem_quiet _ _ _ _ H2) as [H1 ->].
    destruct (proj2 (proj2 (proj2 (proj2 (Hfiles k)))) H1) as [-> ->].
    split; [done|]. unfold written.
    by destruct (parseFloat consumptionInput), (parseFloat priceInput).
Qed.


(** *** The handlers *)

Lemma handle_step st ev :
  handle st ev
  = DataPage.proceed_if_done parseFloat toString accepts heating priceInput
      consumptionInput
      {| DataPage.results :=
           <[DataPage.event_key ev := DataPage.event_text ev]> (DataPage.results st);
         DataPage.pending := DataPage.pending st - 1;
         DataPage.localStorage := DataPage.localStorage st;
         DataPage.alerts := (DataPage.alerts st + failures [ev])%nat;
         DataPage.console := DataPage.console st;
         DataPage.navigations := DataPage.navigations st;
         DataPage.uncaught := DataPage.uncaught st |}.
Proof.
  destruct ev; unfold DataPage.handle, failures; cbn; do 2 f_equal; lia.
Qed.

Lemma failures_cons ev events :
  failures (ev :: events) = (failures [ev] + failures events)%nat.
Proof. unfold failures. cbn. by destruct ev. Qed.

Lemma failures_app front rest :
  failures (front ++ rest) = (failures front + failures rest)%nat.
Proof. unfold failures. by rewrite List.filter_app, length_app. Qed.

(** While readers are outstanding nothing is stored. *)
Lemma handle_waiting events : forall st,
  Z.of_nat (length events) < DataPage.pending st ->
  fold_left handle events st
  = {| DataPage.results := apply_events events (DataPage.results st);
       DataPage.pending := DataPage.pending st - Z.of_nat (length events);
       DataPage.localStorage := DataPage.localStorage st;
       DataPage.alerts := (DataPage.alerts st + failures events)%nat;
       DataPage.console := DataPage.console st;
       DataPage.navigations := DataPage.navigations st;
       DataPage.uncaught := DataPage.uncaught st |}.
Proof.
  induction events as [|ev events IH]; intros st Hp.
  - destruct st. cbn. f_equal; [lia | unfold failures; cbn; lia].
  - cbn [fold_left length] in *. rewrite handle_step.
    unfold DataPage.proceed_if_done. cbn [DataPage.pending].
    assert ((DataPage.pending st - 1 =? 0) = false) as -> by (apply Z.eqb_neq; lia).
    rewrite IH by (cbn; lia). unfold apply_events.
    cbn [fold_left DataPage.pending DataPage.results DataPage.localStorage
         DataPage.alerts DataPage.console DataPage.navigations DataPage.uncaught].
    rewrite (failures_cons ev events). f_equal; lia.
Qed.

(** The last completion calls [proceed]. *)
Lemma handle_all events : forall st,
  events <> [] ->
  DataPage.pending st = Z.of_nat (length events) ->
  fold_left handle events st
  = proceed
      {| DataPage.results := apply_events events (DataPage.results st);
         DataPage.pending := 0;
         DataPage.localStorage := DataPage.localStorage st;
         DataPage.alerts := (DataPage.alerts st + failures events)%nat;
         DataPage.console := DataPage.console st;
         DataPage.navigations := DataPage.navigations st;
         DataPage.uncaught := DataPage.uncaught st |}.
Proof.
  intros st Hne Hp.
  destruct (exists_last Hne) as (front & ev & ->).
  rewrite length_app in Hp. cbn [length] in Hp.
  rewrite fold_left_app, (handle_waiting front st) by lia.
  cbn [fold_left]. rewrite handle_step.
  unfold DataPage.proceed_if_done.
  cbn [DataPage.pending DataPage.results DataPage.localStorage DataPage.alerts
       DataPage.console DataPage.navigations DataPage.uncaught].
  assert ((DataPage.pending st - Z.of_nat (length front) - 1 =? 0) = true) as ->
    by (apply Z.eqb_eq; lia).
  unfold apply_events. rewrite fold_left_app, failures_app. cbn [fold_left].
  do 2 f_equal; lia.
Qed.

Lemma start_reads l : forall st,
  let st' := fold_left (DataPage.start_read files) l st in
  DataPage.pending st'
  = DataPage.pending st + Z.of_nat (length (List.filter files l)) /\
  DataPage.localStorage st' = DataPage.localStorage st /\
  DataPage.alerts st' = DataPage.alerts st /\
  DataPage.console st' = DataPage.console st /\
  DataPage.navigations st' = DataPage.navigations st /\
  DataPage.uncaught st' = DataPage.uncaught st /\
  (forall key,
     (forall v, DataPage.results st !! key = Some v -> v = "") ->
     forall v, DataPage.results st' !! key = Some v -> v = "").
Proof.
  induction l as [|key l IH]; intros st; cbn [fold_left List.filter].
  - cbn. repeat split; try lia; auto.
  - destruct (IH (DataPage.start_read files st key))
      as (Hp & Hs & Ha & Hc & Hn & Hu & Hr).
    cbv zeta. rewrite Hp, Hs, Ha, Hc, Hn, Hu. unfold DataPage.start_read in *.
    destruct (files key); cbn [DataPage.pending DataPage.localStorage
      DataPage.alerts DataPage.console DataPage.navigations DataPage.uncaught
      DataPage.results length] in *;
      repeat split; try lia.
    + exact Hr.
    + intros k Hk. apply Hr. intros v.
      destruct (decide (key = k)) as [->|Hne].
      * rewrite lookup_insert_eq. congruence.
      * rewrite lookup_insert_ne by done. apply Hk.
Qed.

Lemma submit_started ls :
  existsb files DataPage.fileInputs = true ->
  let st := submit ls in
  DataPage.pending st = Z.of_nat (length (List.filter files DataPage.fileInputs)) /\
  0 < DataPage.pending st /\
  DataPage.localStorage st = ls /\ DataPage.alerts st = O /\
  DataPage.console st = [] /\
  DataPage.navigations st = O /\ DataPage.uncaught st = O /\
  (forall key v, DataPage.results st !! key = Some v -> v = "").
Proof.
  intros Hany st. subst st. unfold DataPage.submit. rewrite Hany. cbn [negb].
  set (st0 := {| DataPage.results := ∅; DataPage.pending := 0;
                 DataPage.localStorage := ls; DataPage.alerts := 0;
                 DataPage.console := [];
                 DataPage.navigations := 0; DataPage.uncaught := 0 |}).
  destruct (start_reads DataPage.fileInputs st0) as (Hp & Hs & Ha & Hc & Hn & Hu & Hr).
  cbv zeta in *. cbn [DataPage.pending DataPage.localStorage DataPage.alerts
    DataPage.console DataPage.navigations DataPage.uncaught DataPage.results st0] in *.
  assert (Hpos : (0 < length (List.filter files DataPage.fileInputs))%nat).
  { apply existsb_exists in Hany as (k & Hk & Hf).
    assert (Hin : In k (List.filter files DataPage.fileInputs))
      by (apply filter_In; done).
    destruct (List.filter files DataPage.fileInputs); [done | cbn; lia]. }
  unfold DataPage.proceed_if_done. rewrite Hp.
  assert ((0 + Z.of_nat (length (List.filter files DataPage.fileInputs)) =? 0) = false)
    as -> by (apply Z.eqb_neq; lia).
  rewrite Hp, Hs, Ha, Hc, Hn, Hu. repeat split; try lia.
  intros key v. apply Hr. intros v'. by rewrite lookup_empty.
Qed.

(** The text [proceed] writes for an input is the one delivered. *)
Lemma results_content ls events key :
  existsb files DataPage.fileInputs = true ->
  Permutation (map DataPage.event_key events)
    (List.filter files DataPage.fileInputs) ->
  or_else (apply_events events (DataPage.results (submit ls)) !! key) ""
  = content events key.
Proof.
  intros Hany Hperm.
  destruct (submit_started ls Hany) as (_ & _ & _ & _ & _ & _ & _ & Hr).
  cbv zeta in Hr.
  assert (Hnd : List.NoDup (map DataPage.event_key events)).
  { eapply Permutation_NoDup; [apply Permutation_sym, Hperm|].
    apply List.NoDup_filter. unfold DataPage.fileInputs.
    repeat (constructor; [cbn; intuition discriminate|]). constructor. }
  rewrite apply_events_lookup by done. unfold content.
  destruct (List.find _ events) as [ev|]; [by destruct (DataPage.event_text ev)|].
  destruct (DataPage.results (submit ls) !! key) as [v|] eqn:E; [|done].
  by rewrite (Hr key v E).
Qed.

(** The run ends in the one call of [proceed], which either moves on or
    is left by the exception of the last write. *)
Lemma run_cases ls events :
  existsb files DataPage.fileInputs = true ->
  Permutation (map DataPage.event_key events)
    (List.filter files DataPage.fileInputs) ->
  let R := apply_events events (DataPage.results (submit ls)) in
  let acc := store_rates (store_heating (store_files R (ls, []))) in
  run ls events
  = {| DataPage.results := R; DataPage.pending := 0;
       DataPage.localStorage := <["hasData" := "true"]> acc.1;
       DataPage.alerts := failures events;
       DataPage.console := acc.2;
       DataPage.navigations := 1; DataPage.uncaught := 0 |} \/
  run ls events
  = {| DataPage.results := R; DataPage.pending := 0;
       DataPage.localStorage := acc.1;
       DataPage.alerts := failures events;
       DataPage.console := acc.2;
       DataPage.navigations := 0; DataPage.uncaught := 1 |}.
Proof.
  intros Hany Hperm R acc.
  destruct (submit_started ls Hany) as (Hp & Hpos & Hs & Ha & Hc & Hn & Hu & _).
  cbv zeta in *.
  assert (Hlen : length events = length (List.filter files DataPage.fileInputs)).
  { rewrite <- (Permutation_length Hperm). by rewrite length_map. }
  unfold DataPage.run.
  rewrite handle_all;
    [| intros ->; cbn [length] in Hlen; lia | rewrite Hlen; lia].
  rewrite Hs, Ha, Hc, Hn, Hu. fold R.
  unfold DataPage.proceed, DataPage.setItem.
  cbn [DataPage.results DataPage.localStorage DataPage.console DataPage.alerts
       DataPage.navigations DataPage.uncaught DataPage.pending].
  fold acc. destruct (accepts acc.1 "hasData" "true"); [left | right]; done.
Qed.

Lemma run_lookup ls events k :
  existsb files DataPage.fileInputs = true ->
  Permutation (map DataPage.event_key events)
    (List.filter files DataPage.fileInputs) ->
  k <> "hasData" ->
  DataPage.localStorage (run ls events) !! k
  = (store_rates
       (store_heating
          (store_files (apply_events events (DataPage.results (submit ls)))
             (ls, [])))).1 !! k.
Proof.
  intros Hany Hperm Hk.
  destruct (run_cases ls events Hany Hperm) as [-> | ->];
    cbn [DataPage.localStorage]; [by apply lookup_insert_ne | done].
Qed.

Lemma run_console ls events :
  existsb files DataPage.fileInputs = true ->
  Permutation (map DataPage.event_key events)
    (List.filter files DataPage.fileInputs) ->
  DataPage.console (run ls events)
  = (store_rates
       (store_heating
          (store_files (apply_events events (DataPage.results (submit ls)))
             (ls, [])))).2.
Proof.
  intros Hany Hperm. destruct (run_cases ls events Hany Hperm) as [-> | ->]; done.
Qed.

Lemma run_flag ls events :
  existsb files DataPage.fileInputs = true ->
  Permutation (map DataPage.event_key events)
    (List.filter files DataPage.fileInputs) ->
  (DataPage.navigations (run ls events) + DataPage.uncaught (run ls events) = 1)%nat /\
  (DataPage.navigations (run ls events) = 1%nat ->
   DataPage.localStorage (run ls events) !! "hasData" = Some "true") /\
  (DataPage.uncaught (run ls events) = 1%nat ->
   DataPage.localStorage (run ls events) !! "hasData" = ls !! "hasData").
Proof.
  intros Hany Hperm. split; [|split].
  - destruct (run_cases ls events Hany Hperm) as [-> | ->]; done.
  - destruct (run_cases ls events Hany Hperm) as [-> | ->];
      cbn [DataPage.navigations DataPage.localStorage]; [|done].
    intros _. by rewrite lookup_insert_eq.
  - destruct (run_cases ls events Hany Hperm) as [-> | ->];
      cbn [DataPage.uncaught DataPage.localStorage]; [done|].
    intros _.
    apply (stages_spec (apply_events events (DataPage.results (submit ls))) ls []
             "hasData"); try done.
    cbn. intuition discriminate.
Qed.

Lemma run_file ls events key :
  existsb files DataPage.fileInputs = true ->
  Permutation (map DataPage.event_key events)
    (List.filter files DataPage.fileInputs) ->
  In key DataPage.fileInputs ->
  (DataPage.localStorage (run ls events) !! key = Some (content events key) \/
   DataPage.localStorage (run ls events) !! key = ls !! key) /\
  (DataPage.localStorage (run ls events) !! key <> Some (content events key) ->
   In DataPage.file_error (DataPage.console (run ls events))) /\
  (DataPage.console (run ls events) = [] ->
   DataPage.localStorage (run ls events) !! key = Some (content events key)).
Proof.
  intros Hany Hperm Hkey.
  assert (key <> "hasData")
    by (cbn in Hkey; destruct Hkey as [<-|[<-|[<-|[<-|[]]]]]; discriminate).
  assert (Herr :
    DataPage.localStorage (run ls events) !! key <> Some (content events key) ->
    In DataPage.file_error (DataPage.console (run ls events))).
  { rewrite run_lookup, run_console by done.
    rewrite <- (results_content ls events key Hany Hperm).
    by apply (stages_spec (apply_events events (DataPage.results (submit ls)))
                ls [] key). }
  split; [|split; [exact Herr|]].
  - rewrite run_lookup by done.
    rewrite <- (results_content ls events key Hany Hperm).
    by apply (stages_spec (apply_events events (DataPage.results (submit ls)))
                ls [] key).
  - intros Hnil.
    destruct (decide (DataPage.localStorage (run ls events) !! key
                      = Some (content events key))) as [E|E]; [done|].
    apply Herr in E. rewrite Hnil in E. done.
Qed.



(** X25. What the plotting page then reads.  When the visit logged no
    refusal and moved on, [init] finds the data flag and takes, in input
    order, the texts delivered that are not blank; it shows the
    empty-files message exactly when every delivered text is blank.
    When the write of the flag was refused and no flag was stored
    before, [init] shows the no-data message, whatever was stored for
    the inputs. *)
Theorem init_after_run ls events :
  existsb files DataPage.fileInputs = true ->
  Permutation (map DataPage.event_key events)
    (List.filter files DataPage.fileInputs) ->
  let final := run ls events in
  let stored := DataPage.localStorage final in
  (DataPage.console final = [] -> DataPage.navigations final = 1%nat ->
   csvTexts stored
   = List.filter not_blank (map (content events) DataPage.fileInputs) /\
   init parseFloat stored
   = match List.filter not_blank (map (content events) DataPage.fileInputs) with
     | [] => EmptyFiles
     | texts => Ready texts (load_rates parseFloat stored default_rates)
     end) /\
  (DataPage.uncaught final = 1%nat -> ls !! "hasData" = None ->
   init parseFloat stored = NoData).
Proof.
  intros Hany Hperm final stored. subst final stored.
  destruct (run_flag ls events Hany Hperm) as (_ & Hnav & Hunc).
  split.
  - intros Hnil Hone.
    assert (Hcsv : csvTexts (DataPage.localStorage (run ls events))
       = List.filter not_blank (map (content events) DataPage.fileInputs)).
    { unfold csvTexts. f_equal. apply map_ext_in. intros key Hkey.
      destruct (run_file ls events key Hany Hperm Hkey) as (_ & _ & Hq).
      rewrite (Hq Hnil). by destruct (content events key). }
    split; [exact Hcsv|].
    unfold init. rewrite (Hnav Hone). cbn [or_else]. by rewrite Hcsv.
  - intros Hone Hflag. unfold init. by rewrite (Hunc Hone), Hflag.
Qed.

(** X26. When the visit logged no refusal: a number field that reads as
    a number is stored and becomes the rate of the plotting page (the
    host reading back the text it printed for the number); a field that
    does not read as a number leaves the stored rate as it was, so the
    plotting page loads the same rate as it would have from the storage
    before the visit.  The two rates are written in one guarded block:
    when the price reads as a number and is not what the storage holds
    afterwards, its write was refused, the refusal is on the console, and
    the consumption was not written either. *)
Theorem run_stores_rates ls events cfg :
  existsb files DataPage.fileInputs = true ->
  Permutation (map DataPage.event_key events)
    (List.filter files DataPage.fileInputs) ->
  let final := run ls events in
  let stored := DataPage.localStorage final in
  (DataPage.console final = [] ->
   (forall v, parseFloat priceInput = Some v ->
      stored !! "dieselPrice" = Some (toString v) /\
      (parseFloat (toString v) = Some v ->
       dieselPrice (load_rates parseFloat stored cfg) = v)) /\
   (parseFloat priceInput = None ->
      stored !! "dieselPrice" = ls !! "dieselPrice" /\
      dieselPrice (load_rates parseFloat stored cfg)
      = dieselPrice (load_rates parseFloat ls cfg)) /\
   (forall v, parseFloat consumptionInput = Some v ->
      stored !! "dieselConsumption" = Some (toString v) /\
      (parseFloat (toString v) = Some v ->
       dieselConsumption (load_rates parseFloat stored cfg) = v)) /\
   (parseFloat consumptionInput = None ->
      stored !! "dieselConsumption" = ls !! "dieselConsumption" /\
      dieselConsumption (load_rates parseFloat stored cfg)
      = dieselConsumption (load_rates parseFloat ls cfg))) /\
  (forall v, parseFloat priceInput = Some v ->
     stored !! "dieselPrice" <> Some (toString v) ->
     stored !! "dieselPrice" = ls !! "dieselPrice" /\
     stored !! "dieselConsumption" = ls !! "dieselConsumption" /\
     In DataPage.diesel_error (DataPage.console final)).
Proof.
  intros Hany Hperm final stored. subst final stored.
  set (R := apply_events events (DataPage.results (submit ls))).
  split; cycle 1.
  { intros v Hv. rewrite !run_lookup, run_console by done.
    by apply (stages_spec R ls [] "dieselPrice"). }
  intros Hnil. rewrite run_console in Hnil by done.
  destruct (proj2 (proj2 (proj2 (proj2 (proj2 (proj2
              (stages_spec R ls [] "dieselPrice")))))) Hnil) as [_ Hw].
  assert (Hstored : forall k, k <> "hasData" ->
    DataPage.localStorage (run ls events) !! k
    = written parseFloat toString heating priceInput consumptionInput R ls !! k).
  { intros k Hk. rewrite run_lookup by done. fold R.
    rewrite <- Hw. by rewrite lookup_insert_ne. }
  assert (Hout : forall key, ~ In key DataPage.fileInputs ->
    fold_left (fun ls0 id => <[id := or_else (R !! id) ""]> ls0)
      DataPage.fileInputs ls !! key = ls !! key).
  { intros key Hk.
    exact (fold_insert_out (fun id => or_else (R !! id) "")
             DataPage.fileInputs key ls Hk). }
  assert (Hprice : ~ In "dieselPrice" DataPage.fileInputs)
    by (cbn; intuition discriminate).
  assert (Hcons : ~ In "dieselConsumption" DataPage.fileInputs)
    by (cbn; intuition discriminate).
  assert (H12 : DataPage.localStorage (run ls events) !! "dieselPrice"
                = match parseFloat priceInput with
                  | Some v => Some (toString v)
                  | None => ls !! "dieselPrice"
                  end /\
                DataPage.localStorage (run ls events) !! "dieselConsumption"
                = match parseFloat consumptionInput with
                  | Some v => Some (toString v)
                  | None => ls !! "dieselConsumption"
                  end).
  { rewrite !Hstored by done. unfold written.
    rewrite !(lookup_insert_ne _ "hasData") by done.
    destruct (parseFloat consumptionInput), (parseFloat priceInput);
      rewrite ?lookup_insert_eq, ?(lookup_insert_ne _ "dieselConsumption" "dieselPrice"),
        ?(lookup_insert_ne _ "dieselPrice" "dieselConsumption"),
        ?lookup_insert_eq, ?(lookup_insert_ne _ "heating") by done;
      rewrite ?Hout by done; done. }
  destruct H12 as [H1 H2]. unfold load_rates. cbn [dieselPrice dieselConsumption].
  rewrite H1, H2. repeat split.
  - by rewrite H.
  - intros Hround. rewrite H. cbn. by rewrite Hround.
  - by rewrite H.
  - by rewrite H.
  - by rewrite H.
  - intros Hround. rewrite H. cbn. by rewrite Hround.
  - by rewrite H.
  - by rewrite H.
Qed.

End DataPageRun.

Lemma example_events_permutation :
  Permutation (map DataPage.event_key example_events)
    (List.filter example_files DataPage.fileInputs).
Proof. exact (perm_swap "group2" "group4" []). Defined.



Lemma init_after_run_witness :
  csvTexts (DataPage.localStorage (example_run roomy ∅))
  = List.filter not_blank (map (content example_events) DataPage.fileInputs) /\
  init Host.parseFloat (DataPage.localStorage (example_run full ∅)) = NoData.
Proof.
  split.
  - apply (init_after_run Host.parseFloat (fun _ => "5.5") roomy example_files
             "{}" "5.5" "abc" ∅ example_events eq_refl
             example_events_permutation); reflexivity.
  - apply (init_after_run Host.parseFloat (fun _ => "5.5") full example_files
             "{}" "5.5" "abc" ∅ example_events eq_refl
             example_events_permutation); reflexivity.
Defined.

Lemma run_stores_rates_witness :
  dieselPrice (load_rates Host.parseFloat
                 (DataPage.localStorage (example_run roomy earlier_visit)) default_rates)
  = 5.5%Q /\
  dieselConsumption (load_rates Host.parseFloat
                       (DataPage.localStorage (example_run roomy earlier_visit)) default_rates)
  = dieselConsumption (load_rates Host.parseFloat earlier_visit default_rates) /\
  DataPage.localStorage (example_run_rates no_price earlier_visit) !! "dieselConsumption"
  = earlier_visit !! "dieselConsumption".
Proof.
  destruct (run_stores_rates Host.parseFloat (fun _ => "5.5") roomy example_files
              "{}" "5.5" "abc" earlier_visit example_events default_rates eq_refl
              example_events_permutation) as (Hquiet & _).
  destruct (Hquiet eq_refl) as (Hp & _ & _ & Hc).
  destruct (run_stores_rates Host.parseFloat (fun _ => "5.5") no_price example_files
              "{}" "5.5" "5.5" earlier_visit example_events default_rates eq_refl
              example_events_permutation) as (_ & Hrefused).
  split; [|split].
  - apply (Hp 5.5%Q); reflexivity.
  - apply Hc. reflexivity.
  - assert (Hv : Host.parseFloat "5.5" = Some 5.5%Q) by (vm_compute; reflexivity).
    destruct (Hrefused 5.5%Q Hv) as (_ & H & _); [|exact H].
    vm_compute. discriminate.
Defined.
